(** * Variant generation and caching orchestrator

    A shallow embedding of the session controller of [App.tsx]
    (state hooks, [displayImageUrl], [handleStart], [handleStartOver],
    [handleAngleSelect]) and of the provider response interpreter
    [handleApiResponse] of [services/geminiService.ts], with the
    properties of the specification stated over them. *)

From Stdlib Require Import String Ascii List ZArith Bool Lia.
Import ListNotations.

Local Open Scope string_scope.

(** ** JavaScript values and operators used by the sources *)

Module JS.

(** A value of type [string | undefined]: [None] is [undefined]. *)
Definition value := option string.

(** Truthiness of a [string | undefined]: [undefined] and the empty
    string are falsy. *)
Definition truthy (v : value) : bool :=
  match v with
  | Some s => negb (s =? "")
  | None => false
  end.

(** Truthiness of an object reference or [null]/[undefined]. *)
Definition defined {A : Type} (v : option A) : bool :=
  match v with
  | Some _ => true
  | None => false
  end.

(** [`${v}`] and the coercion of a computed property key. *)
Definition template (v : value) : string :=
  match v with
  | Some s => s
  | None => "undefined"
  end.

(** [a ?? b]. *)
Definition nullish {A : Type} (a b : option A) : option A :=
  match a with
  | Some _ => a
  | None => b
  end.

(** [a || b] on strings. *)
Definition or_else (a : value) (b : string) : string :=
  match a with
  | Some s => if s =? "" then b else s
  | None => b
  end.

(** [arr[i]] for an integer-valued number [i]. *)
Definition index {A : Type} (arr : list A) (i : Z) : option A :=
  if (i <? 0)%Z then None else nth_error arr (Z.to_nat i).

(** The double-quote character written inside a template literal. *)
Definition dquote : string := String (ascii_of_nat 34) EmptyString.

End JS.

(** ** Plain objects used as string-keyed maps

    [GeneratedImageHistory] is an object whose own properties are the
    angle instructions.  None of the keys the controller inserts is an
    array index, so property enumeration order is insertion order: the
    object is an association list, oldest property first. *)

Module Obj.

Definition t := list (string * string).

(** [o[k]] *)
Fixpoint get (o : t) (k : string) : JS.value :=
  match o with
  | [] => None
  | (k', v) :: rest => if k' =? k then Some v else get rest k
  end.

(** [{ ...o, [k]: v }]: an existing property keeps its position. *)
Fixpoint set (o : t) (k v : string) : t :=
  match o with
  | [] => [(k, v)]
  | (k', v') :: rest =>
      if k' =? k then (k', v) :: rest else (k', v') :: set rest k v
  end.

(** [Object.values(o)] and [Object.keys(o)] *)
Definition values (o : t) : list string := map snd o.
Definition keys (o : t) : list string := map fst o.

End Obj.

(** ** The provider response interpreter ([services/geminiService.ts]) *)

Module Gemini.

(** The parts of [GenerateContentResponse] that [handleApiResponse]
    reads.  Every field is optional in the provider's types. *)
Record Blob := { mimeType : JS.value; data : JS.value }.
Record Part := { inlineData : option Blob; partText : JS.value }.
Record Content := { parts : option (list Part) }.
Record Candidate :=
  { content : option Content; finishReason : JS.value }.
Record PromptFeedback :=
  { blockReason : JS.value; blockReasonMessage : JS.value }.
Record GenerateContentResponse :=
  { promptFeedback : option PromptFeedback;
    candidates : option (list Candidate);
    text : JS.value }.

(** What a call evaluates to: a returned string or a thrown
    [Error(message)]. *)
Inductive completion :=
| Returns (url : string)
| Throws (message : string).

Definition blockedMessage (reason : string) (explanation : JS.value)
  : string :=
  "La solicitud fue bloqueada. Razón: " ++ reason ++ ". "
    ++ JS.or_else explanation "".

Definition abnormalMessage (reason : string) : string :=
  "La generación de imágenes se detuvo inesperadamente. Razón: "
    ++ reason
    ++ ". Esto a menudo se relaciona con la configuración de seguridad.".

Definition noImageMessage (textFeedback : JS.value) : string :=
  "El modelo de IA no devolvió una imagen. "
    ++ (if JS.truthy textFeedback
        then "El modelo respondió con texto: " ++ JS.dquote
               ++ JS.template textFeedback ++ JS.dquote
        else "Esto puede ocurrir debido a los filtros de seguridad o si la solicitud es demasiado compleja. Por favor, intenta con una imagen diferente.").

(** [`data:${mimeType};base64,${data}`] *)
Definition dataUrl (b : Blob) : string :=
  "data:" ++ JS.template (mimeType b) ++ ";base64,"
    ++ JS.template (data b).

(** [candidate.content?.parts?.find(part => part.inlineData)] *)
Definition imagePart (c : Candidate) : option Part :=
  match content c with
  | None => None
  | Some ct =>
      match parts ct with
      | None => None
      | Some ps => find (fun p => JS.defined (inlineData p)) ps
      end
  end.

(** The [for ... of] loop over the candidates: the value returned from
    inside the loop, if any. *)
Fixpoint firstImage (cs : list Candidate) : option string :=
  match cs with
  | [] => None
  | c :: rest =>
      match imagePart c with
      | Some p =>
          match inlineData p with
          | Some b => Some (dataUrl b)
          | None => firstImage rest
          end
      | None => firstImage rest
      end
  end.

Section Interpreter.

(** [String.prototype.trim] of the host. *)
Variable trim : string -> string.

(** Lines 62-78: everything after the block-reason check. *)
Definition afterBlockCheck (response : GenerateContentResponse)
  : completion :=
  match
    firstImage (match candidates response with
                | Some cs => cs
                | None => []
                end)
  with
  | Some url => Returns url
  | None =>
      let finish :=
        match candidates response with
        | Some (c :: _) => finishReason c
        | _ => None
        end in
      if JS.truthy finish && negb (JS.template finish =? "STOP")
      then Throws (abnormalMessage (JS.template finish))
      else
        let textFeedback :=
          match text response with
          | Some s => Some (trim s)
          | None => None
          end in
        Throws (noImageMessage textFeedback)
  end.

Definition handleApiResponse (response : GenerateContentResponse)
  : completion :=
  match promptFeedback response with
  | Some pf =>
      if JS.truthy (blockReason pf)
      then Throws (blockedMessage (JS.template (blockReason pf))
                     (blockReasonMessage pf))
      else afterBlockCheck response
  | None => afterBlockCheck response
  end.

End Interpreter.

End Gemini.

(** ** The session controller ([App.tsx]) *)

Module App.

Record BoxItem := { id : string; name : string; url : string }.

(** A browser [File]; the controller only stores and forwards it. *)
Record File := { fileName : string; fileType : string }.

Definition GeneratedImageHistory := Obj.t.

Definition ANGLE_INSTRUCTIONS : list string :=
  [ "Vista Frontal";
    "Vista en Ángulo";
    "Vista Superior";
    "Primer Plano del Logo";
    "En un Entorno de Lujo" ].

(** The seven [useState] cells of [App]. *)
Record State :=
  { selectedBox : option BoxItem;
    logoFile : option File;
    generatedImages : GeneratedImageHistory;
    currentAngleIndex : Z;
    isLoading : bool;
    loadingMessage : string;
    error : JS.value }.

(** The state of the first render. *)
Definition initialState : State :=
  {| selectedBox := None;
     logoFile := None;
     generatedImages := [];
     currentAngleIndex := 0;
     isLoading := false;
     loadingMessage := "";
     error := None |}.

Definition setSelectedBox (v : option BoxItem) (s : State) : State :=
  {| selectedBox := v;
     logoFile := logoFile s;
     generatedImages := generatedImages s;
     currentAngleIndex := currentAngleIndex s;
     isLoading := isLoading s;
     loadingMessage := loadingMessage s;
     error := error s |}.

Definition setLogoFile (v : option File) (s : State) : State :=
  {| selectedBox := selectedBox s;
     logoFile := v;
     generatedImages := generatedImages s;
     currentAngleIndex := currentAngleIndex s;
     isLoading := isLoading s;
     loadingMessage := loadingMessage s;
     error := error s |}.

(** [setGeneratedImages] takes an updater of the latest value; a plain
    value is the constant updater. *)
Definition setGeneratedImages
  (f : GeneratedImageHistory -> GeneratedImageHistory) (s : State)
  : State :=
  {| selectedBox := selectedBox s;
     logoFile := logoFile s;
     generatedImages := f (generatedImages s);
     currentAngleIndex := currentAngleIndex s;
     isLoading := isLoading s;
     loadingMessage := loadingMessage s;
     error := error s |}.

Definition setCurrentAngleIndex (v : Z) (s : State) : State :=
  {| selectedBox := selectedBox s;
     logoFile := logoFile s;
     generatedImages := generatedImages s;
     currentAngleIndex := v;
     isLoading := isLoading s;
     loadingMessage := loadingMessage s;
     error := error s |}.

Definition setIsLoading (v : bool) (s : State) : State :=
  {| selectedBox := selectedBox s;
     logoFile := logoFile s;
     generatedImages := generatedImages s;
     currentAngleIndex := currentAngleIndex s;
     isLoading := v;
     loadingMessage := loadingMessage s;
     error := error s |}.

Definition setLoadingMessage (v : string) (s : State) : State :=
  {| selectedBox := selectedBox s;
     logoFile := logoFile s;
     generatedImages := generatedImages s;
     currentAngleIndex := currentAngleIndex s;
     isLoading := isLoading s;
     loadingMessage := v;
     error := error s |}.

Definition setError (v : JS.value) (s : State) : State :=
  {| selectedBox := selectedBox s;
     logoFile := logoFile s;
     generatedImages := generatedImages s;
     currentAngleIndex := currentAngleIndex s;
     isLoading := isLoading s;
     loadingMessage := loadingMessage s;
     error := v |}.

(** [displayImageUrl]: [undefined] is [None]. *)
Definition displayImageUrl (s : State) : JS.value :=
  let currentAngleInstruction :=
    JS.index ANGLE_INSTRUCTIONS (currentAngleIndex s) in
  JS.nullish
    (Obj.get (generatedImages s) (JS.template currentAngleInstruction))
    (JS.nullish
       (JS.index (Obj.values (generatedImages s)) 0)
       (option_map url (selectedBox s))).

Definition availableAngleKeys (s : State) : list string :=
  Obj.keys (generatedImages s).

(** [handleStartOver] *)
Definition handleStartOver (s : State) : State :=
  let s := setSelectedBox None s in
  let s := setLogoFile None s in
  let s := setGeneratedImages (fun _ => []) s in
  let s := setCurrentAngleIndex 0 s in
  let s := setIsLoading false s in
  let s := setLoadingMessage "" s in
  setError None s.

(** The two calls of the generation client that the controller
    awaits, with their arguments. *)
Inductive Request :=
| generateLogoOnBoxImage (box : BoxItem) (logo : File)
| generateAngleVariation (boxImageUrl : string)
    (angleInstruction : JS.value).

Section Controller.

(** The value bound by [catch (err)], and [getFriendlyErrorMessage]
    of [lib/utils], which turns it into the displayed message. *)
Variable Thrown : Type.
Variable getFriendlyErrorMessage : Thrown -> string -> string.

(** How the awaited promise settles. *)
Inductive Settled :=
| Fulfilled (newImageUrl : string)
| Rejected (err : Thrown).

(** An [async] handler runs to its [return] or to its single
    [await].  [Done s] is a handler that returned leaving the state
    [s]; [Await s request resume] is a handler suspended on
    [request] with the state [s] committed so far; [resume] is the
    rest of the body, run on the state that is current when the
    promise settles. *)
Inductive Handler :=
| Done (s : State)
| Await (s : State) (request : Request)
    (resume : Settled -> State -> State).

(** The handler run with nothing else happening in between. *)
Definition settle (h : Handler) (outcome : Settled) : State :=
  match h with
  | Done s => s
  | Await s _ resume => resume outcome s
  end.

(** [handleStart] after its [await]: the rest of [try], or
    [catch], then [finally]. *)
Definition resumeStart (outcome : Settled) (t : State) : State :=
  let t :=
    match outcome with
    | Fulfilled newImageUrl =>
        let initialAngle := JS.index ANGLE_INSTRUCTIONS 0 in
        let t :=
          setGeneratedImages
            (fun _ => [(JS.template initialAngle, newImageUrl)]) t in
        setCurrentAngleIndex 0 t
    | Rejected err =>
        let t :=
          setError
            (Some (getFriendlyErrorMessage err
                     "No se pudo generar la maqueta")) t in
        let t := setSelectedBox None t in
        setLogoFile None t
    end in
  let t := setIsLoading false t in
  setLoadingMessage "" t.

Definition handleStart (box : BoxItem) (logo : File) (s : State)
  : Handler :=
  let s := setSelectedBox (Some box) s in
  let s := setLogoFile (Some logo) s in
  let s := setError None s in
  let s := setIsLoading true s in
  let s :=
    setLoadingMessage ("Colocando tu logo en la " ++ name box ++ "...")
      s in
  Await s (generateLogoOnBoxImage box logo) resumeStart.

(** [handleAngleSelect] after its [await], with the two constants
    of the call it closes over. *)
Definition resumeAngleSelect (prevAngleIndex : Z)
  (angleInstruction : JS.value) (outcome : Settled) (t : State)
  : State :=
  let t :=
    match outcome with
    | Fulfilled newImageUrl =>
        setGeneratedImages
          (fun prev =>
             Obj.set prev (JS.template angleInstruction) newImageUrl)
          t
    | Rejected err =>
        let t :=
          setError
            (Some (getFriendlyErrorMessage err
                     "No se pudo cambiar la vista")) t in
        setCurrentAngleIndex prevAngleIndex t
    end in
  let t := setIsLoading false t in
  setLoadingMessage "" t.

Definition handleAngleSelect (newIndex : Z) (s : State) : Handler :=
  if isLoading s
     || (newIndex =? currentAngleIndex s)%Z
     || negb (JS.defined (selectedBox s))
  then Done s
  else
    let angleInstruction := JS.index ANGLE_INSTRUCTIONS newIndex in
    if JS.truthy
         (Obj.get (generatedImages s) (JS.template angleInstruction))
    then Done (setCurrentAngleIndex newIndex s)
    else
      match JS.index (Obj.values (generatedImages s)) 0 with
      | None => Done s
      | Some baseImageForAngleChange =>
          if negb (JS.truthy (Some baseImageForAngleChange))
          then Done s
          else
            let prevAngleIndex := currentAngleIndex s in
            let s := setError None s in
            let s := setIsLoading true s in
            let s :=
              setLoadingMessage
                ("Cambiando la vista a " ++ JS.dquote
                   ++ JS.template angleInstruction ++ JS.dquote
                   ++ "...") s in
            let s := setCurrentAngleIndex newIndex s in
            Await s
              (generateAngleVariation baseImageForAngleChange
                 angleInstruction)
              (resumeAngleSelect prevAngleIndex angleInstruction)
      end.

(** The calls the presentation layer makes into the controller,
    each with the way its request (if any) settles. *)
Inductive Op :=
| Start (box : BoxItem) (logo : File) (outcome : Settled)
| SelectView (newIndex : Z) (outcome : Settled)
| Reset.

Definition apply (op : Op) (s : State) : State :=
  match op with
  | Start box logo outcome => settle (handleStart box logo s) outcome
  | SelectView newIndex outcome =>
      settle (handleAngleSelect newIndex s) outcome
  | Reset => handleStartOver s
  end.

Definition run (ops : list Op) (s : State) : State :=
  fold_left (fun t op => apply op t) ops s.

End Controller.

Arguments Fulfilled {Thrown} newImageUrl.
Arguments Rejected {Thrown} err.
Arguments Done {Thrown} s.
Arguments Await {Thrown} s request resume.
Arguments settle {Thrown} h outcome.
Arguments resumeStart {Thrown} getFriendlyErrorMessage outcome t.
Arguments resumeAngleSelect {Thrown} getFriendlyErrorMessage
  prevAngleIndex angleInstruction outcome t.
Arguments handleStart {Thrown} getFriendlyErrorMessage box logo s.
Arguments handleAngleSelect {Thrown} getFriendlyErrorMessage newIndex s.
Arguments Start {Thrown} box logo outcome.
Arguments SelectView {Thrown} newIndex outcome.
Arguments Reset {Thrown}.
Arguments apply {Thrown} getFriendlyErrorMessage op s.
Arguments run {Thrown} getFriendlyErrorMessage ops s.

End App.

(** ** The behaviour the specification prescribes

    Definitions written from the specification's sentences, to be
    compared with the ones above. *)

Module Spec.

Import Gemini App.

(** The parts of [c] hold an inline image payload, the first of them
    being [b]. *)
Definition hasImage (c : Candidate) (b : Blob) : Prop :=
  exists ct before p after,
    content c = Some ct
    /\ parts ct = Some (before ++ p :: after)%list
    /\ Forall (fun q => inlineData q = None) before
    /\ inlineData p = Some b.

(** No part of [c] holds an inline image payload. *)
Definition noImage (c : Candidate) : Prop :=
  forall ct ps p,
    content c = Some ct -> parts ct = Some ps -> In p ps ->
    inlineData p = None.

(** A reason code is present when it is a non-empty string. *)
Definition absent (reason : JS.value) : Prop :=
  reason = None \/ reason = Some "".

Definition notBlocked (r : GenerateContentResponse) : Prop :=
  forall pf, promptFeedback r = Some pf -> absent (blockReason pf).

Definition noImageAtAll (r : GenerateContentResponse) : Prop :=
  forall cs, candidates r = Some cs -> Forall noImage cs.

Definition finishedNormally (r : GenerateContentResponse) : Prop :=
  forall c rest,
    candidates r = Some (c :: rest) ->
    absent (finishReason c) \/ finishReason c = Some "STOP".

Section Interpret.

Variable trim : string -> string.

(** Section 4.2, steps 1 to 4, first match wins. *)
Inductive interprets (r : GenerateContentResponse)
  : completion -> Prop :=
| BlockedRequestError pf reason :
    promptFeedback r = Some pf ->
    blockReason pf = Some reason ->
    reason <> "" ->
    interprets r
      (Throws (blockedMessage reason (blockReasonMessage pf)))
| CanonicalImage before c after b :
    notBlocked r ->
    candidates r = Some (before ++ c :: after)%list ->
    Forall noImage before ->
    hasImage c b ->
    interprets r (Returns (dataUrl b))
| AbnormalCompletionError c rest reason :
    notBlocked r ->
    noImageAtAll r ->
    candidates r = Some (c :: rest) ->
    finishReason c = Some reason ->
    reason <> "" ->
    reason <> "STOP" ->
    interprets r (Throws (abnormalMessage reason))
| NoImageProducedError :
    notBlocked r ->
    noImageAtAll r ->
    finishedNormally r ->
    interprets r
      (Throws (noImageMessage (option_map trim (text r)))).

End Interpret.

(** The ViewKey the session has selected. *)
Definition selectedView (s : State) : string :=
  JS.template (JS.index ANGLE_INSTRUCTIONS (currentAngleIndex s)).

(** The ViewKey a [SelectView] call targets. *)
Definition viewKey (index : Z) : string :=
  JS.template (JS.index ANGLE_INSTRUCTIONS index).

(** Displayed-image resolution of section 4.4. *)
Definition displayedImage (s : State) : JS.value :=
  match Obj.get (generatedImages s) (selectedView s) with
  | Some image => Some image
  | None =>
      match generatedImages s with
      | (_, first) :: _ => Some first
      | [] =>
          match selectedBox s with
          | Some box => Some (url box)
          | None => None
          end
      end
  end.

(** What the user sees of a session: the cache, the selected view and
    the base/logo selection. *)
Definition sameSession (s s' : State) : Prop :=
  generatedImages s' = generatedImages s
  /\ currentAngleIndex s' = currentAngleIndex s
  /\ selectedBox s' = selectedBox s
  /\ logoFile s' = logoFile s.

(** The state of "no session". *)
Definition noSession (s : State) : Prop :=
  selectedBox s = None /\ logoFile s = None.

Section Transitions.

Variable Thrown : Type.
Variable getFriendlyErrorMessage : Thrown -> string -> string.

(** The four ways a [SelectView(newIndex)] call goes in a state [s],
    in the order section 4.4 lists them. *)
Inductive selectViewCase (newIndex : Z) (s : State)
  : Handler Thrown -> Prop :=
| Ignored :
    isLoading s = true
    \/ newIndex = currentAngleIndex s
    \/ selectedBox s = None ->
    selectViewCase newIndex s (Done s)
| CacheHit image :
    isLoading s = false ->
    newIndex <> currentAngleIndex s ->
    selectedBox s <> None ->
    Obj.get (generatedImages s) (viewKey newIndex) = Some image ->
    image <> "" ->
    selectViewCase newIndex s (Done (setCurrentAngleIndex newIndex s))
| NoBase :
    isLoading s = false ->
    newIndex <> currentAngleIndex s ->
    selectedBox s <> None ->
    absent (Obj.get (generatedImages s) (viewKey newIndex)) ->
    generatedImages s = []
    \/ (exists key rest, generatedImages s = (key, "") :: rest) ->
    selectViewCase newIndex s (Done s)
| Regenerate key base rest :
    isLoading s = false ->
    newIndex <> currentAngleIndex s ->
    selectedBox s <> None ->
    absent (Obj.get (generatedImages s) (viewKey newIndex)) ->
    generatedImages s = (key, base) :: rest ->
    base <> "" ->
    selectViewCase newIndex s
      (Await
         (setCurrentAngleIndex newIndex
            (setLoadingMessage
               ("Cambiando la vista a " ++ JS.dquote
                  ++ viewKey newIndex ++ JS.dquote ++ "...")
               (setIsLoading true (setError None s))))
         (generateAngleVariation base
            (JS.index ANGLE_INSTRUCTIONS newIndex))
         (resumeAngleSelect getFriendlyErrorMessage
            (currentAngleIndex s)
            (JS.index ANGLE_INSTRUCTIONS newIndex))).

(** The entry of [key] holds a different image after [op] than
    before. *)
Definition overwrites (op : Op Thrown) (s : State) (key : string)
  : Prop :=
  exists old new,
    Obj.get (generatedImages s) key = Some old
    /\ Obj.get (generatedImages (apply getFriendlyErrorMessage op s))
         key = Some new
    /\ new <> old.

(** [op] is a successful regeneration that targets [key]: a
    [SelectView] of that key whose request was issued and fulfilled,
    or a fulfilled [Start], which generates the first view. *)
Definition regenerates (op : Op Thrown) (s : State) (key : string)
  : Prop :=
  match op with
  | SelectView newIndex (Fulfilled _) =>
      key = viewKey newIndex
      /\ exists s1 request resume,
           handleAngleSelect getFriendlyErrorMessage newIndex s
           = Await s1 request resume
  | Start _ _ (Fulfilled _) => key = viewKey 0
  | _ => False
  end.

(** The entry of [key] is gone or holds another image after [op]. *)
Definition disturbs (op : Op Thrown) (s : State) (key : string) : Prop :=
  exists old,
    Obj.get (generatedImages s) key = Some old
    /\ Obj.get (generatedImages (apply getFriendlyErrorMessage op s)) key
       <> Some old.

(** Every image a fulfilled request delivers is a non-empty string, as
    every data URL is. *)
Definition deliversImage (op : Op Thrown) : Prop :=
  match op with
  | Start _ _ (Fulfilled newImageUrl) => newImageUrl <> ""
  | SelectView _ (Fulfilled newImageUrl) => newImageUrl <> ""
  | _ => True
  end.

End Transitions.

(** No cache entry holds the empty string. *)
Definition imagesNonEmpty (s : State) : Prop :=
  Forall (fun entry => snd entry <> "") (generatedImages s).

Arguments disturbs {Thrown} getFriendlyErrorMessage op s key.
Arguments deliversImage {Thrown} op.
Arguments selectViewCase {Thrown} getFriendlyErrorMessage newIndex s _.
Arguments overwrites {Thrown} getFriendlyErrorMessage op s key.
Arguments regenerates {Thrown} getFriendlyErrorMessage op s key.

End Spec.

(** ** What the interpreter is to return or throw

    The outcomes of section 4.2 with what each carries, and the string
    each one is returned or thrown as, written out on its own. *)

Module InterpreterSpec.

Import Gemini Spec.

Inductive Outcome :=
| Image (b : Blob)
| BlockedRequest (reason : string) (explanation : JS.value)
| AbnormalCompletion (reason : string)
| NoImageProduced (accompanying : JS.value).

Section Prescribed.

Variable trim : string -> string.

(** Section 4.2, steps 1 to 4, first match wins: the outcome with the
    reason code, explanation, image or text it carries. *)
Inductive prescribes (r : GenerateContentResponse) : Outcome -> Prop :=
| Step1 pf reason :
    promptFeedback r = Some pf ->
    blockReason pf = Some reason ->
    reason <> "" ->
    prescribes r (BlockedRequest reason (blockReasonMessage pf))
| Step2 before c after b :
    notBlocked r ->
    candidates r = Some (before ++ c :: after)%list ->
    Forall noImage before ->
    hasImage c b ->
    prescribes r (Image b)
| Step3 c rest reason :
    notBlocked r ->
    noImageAtAll r ->
    candidates r = Some (c :: rest) ->
    finishReason c = Some reason ->
    reason <> "" ->
    reason <> "STOP" ->
    prescribes r (AbnormalCompletion reason)
| Step4 :
    notBlocked r ->
    noImageAtAll r ->
    finishedNormally r ->
    prescribes r (NoImageProduced (option_map trim (text r))).

End Prescribed.

(** The image as the string that is returned: its MIME type and its
    payload, verbatim, as a base64 data URL. *)
Definition imageUrl (b : Blob) : string :=
  "data:" ++ JS.template (mimeType b) ++ ";base64,"
    ++ JS.template (data b).

(** The message each failure is thrown with. *)
Definition failureMessage (o : Outcome) : string :=
  match o with
  | Image _ => ""
  | BlockedRequest reason explanation =>
      "La solicitud fue bloqueada. Razón: " ++ reason ++ ". "
        ++ match explanation with
           | Some words => words
           | None => ""
           end
  | AbnormalCompletion reason =>
      "La generación de imágenes se detuvo inesperadamente. Razón: "
        ++ reason
        ++ ". Esto a menudo se relaciona con la configuración de seguridad."
  | NoImageProduced accompanying =>
      "El modelo de IA no devolvió una imagen. "
        ++ match accompanying with
           | Some (String c words) =>
               "El modelo respondió con texto: " ++ JS.dquote
                 ++ String c words ++ JS.dquote
           | _ =>
               "Esto puede ocurrir debido a los filtros de seguridad o si la solicitud es demasiado compleja. Por favor, intenta con una imagen diferente."
           end
  end.

Definition completionOf (o : Outcome) : completion :=
  match o with
  | Image b => Returns (imageUrl b)
  | _ => Throws (failureMessage o)
  end.

End InterpreterSpec.

(** ** Concrete sessions and responses *)

Module Sample.

Import Gemini App.

(** A [trim] that strips ASCII spaces, tabs and line breaks. *)
Definition isSpace (c : ascii) : bool :=
  let n := nat_of_ascii c in
  ((9 <=? n) && (n <=? 13) || (n =? 32))%nat.

Fixpoint trimStart (s : string) : string :=
  match s with
  | String c rest => if isSpace c then trimStart rest else s
  | EmptyString => EmptyString
  end.

Fixpoint trimEnd (s : string) : string :=
  match s with
  | String c rest =>
      match trimEnd rest with
      | EmptyString => if isSpace c then EmptyString else String c EmptyString
      | kept => String c kept
      end
  | EmptyString => EmptyString
  end.

Definition trim (s : string) : string := trimEnd (trimStart s).

(** A [getFriendlyErrorMessage] over thrown [Error] messages. *)
Definition friendly (err : string) (context : string) : string :=
  context ++ ". " ++ err.

Definition boxA : BoxItem :=
  {| id := "cardboard-box";
     name := "Caja de Regalo de Cartón";
     url := "https://i.imgur.com/8N4R42t.jpeg" |}.

Definition logoX : File :=
  {| fileName := "logo.png"; fileType := "image/png" |}.

Definition I1 : string := "data:image/png;base64,AAAA".
Definition I2 : string := "data:image/png;base64,BBBB".
Definition I3 : string := "data:image/png;base64,CCCC".

Definition pngPart (payload : string) : Part :=
  {| inlineData :=
       Some {| mimeType := Some "image/png"; data := Some payload |};
     partText := None |}.

Definition textPart (words : string) : Part :=
  {| inlineData := None; partText := Some words |}.

Definition candidate (ps : list Part) (finish : JS.value) : Candidate :=
  {| content := Some {| parts := Some ps |}; finishReason := finish |}.

(** A text-only first candidate cut short for safety, followed by a
    candidate with an image. *)
Definition imageInSecondCandidate : GenerateContentResponse :=
  {| promptFeedback := None;
     candidates :=
       Some [ candidate [textPart "no"] (Some "SAFETY");
              candidate [textPart "here"; pngPart "AAAA"; pngPart "BBBB"]
                (Some "STOP") ];
     text := Some "no" |}.

Definition blockedWithImage : GenerateContentResponse :=
  {| promptFeedback :=
       Some {| blockReason := Some "SAFETY";
               blockReasonMessage := None |};
     candidates := Some [ candidate [pngPart "AAAA"] (Some "STOP") ];
     text := None |}.

Definition truncated : GenerateContentResponse :=
  {| promptFeedback := None;
     candidates := Some [ candidate [textPart "partial"] (Some "SAFETY") ];
     text := Some "partial" |}.

Definition textOnly : GenerateContentResponse :=
  {| promptFeedback := None;
     candidates := Some [ candidate [textPart " I cannot. "] (Some "STOP") ];
     text := Some " I cannot. " |}.

(** The scenario of section 8: Start, then a second view. *)
Definition afterStart : State :=
  run friendly [Start boxA logoX (Fulfilled I1)] initialState.

Definition twoViews : State :=
  run friendly
    [Start boxA logoX (Fulfilled I1); SelectView 1 (Fulfilled I2)]
    initialState.

(** A later [Start] on the same session fails. *)
Definition twoViewsNoBox : State :=
  run friendly [Start boxA logoX (Rejected "503")] twoViews.

(** A request is in flight. *)
Definition pendingStart : State :=
  match handleStart friendly boxA logoX initialState with
  | Await s _ _ => s
  | Done s => s
  end.

Definition boxB : BoxItem :=
  {| id := "tin-box"; name := "Caja de Lata"; url := "data:image/png;base64,TIN" |}.

(** [SelectView(2)] on two cached views is suspended on its request. *)
Definition awaitingTop : State :=
  match handleAngleSelect friendly 2 twoViews with
  | Await s _ _ => s
  | Done s => s
  end.

(** A failed third view leaves its error behind. *)
Definition staleError : State :=
  run friendly [SelectView 2 (Rejected "SAFETY")] twoViews.

(** The user starts over while the first request is in flight, and the
    request is fulfilled afterwards. *)
Definition resetDuringStart : State :=
  resumeStart friendly (Fulfilled I1) (handleStartOver pendingStart).

End Sample.

(** ** Data URLs ([services/geminiService.ts], lines 21-34)

    A string is the sequence of UTF-8 bytes of the script's string.  The
    characters the code looks for are ASCII and occur in no longer
    sequence, so looking for them byte by byte finds the same places. *)

Module DataUrl.

(** A value returned, or [throw new Error(message)]. *)
Inductive result (A : Type) : Type :=
| Ok (a : A)
| Error (message : string).

Arguments Ok {A} a.
Arguments Error {A} message.

(** [s.split(separator)] for a one-character separator: never empty. *)
Fixpoint split (separator : ascii) (s : string) : list string :=
  match s with
  | EmptyString => [EmptyString]
  | String c rest =>
      if (c =? separator)%char
      then EmptyString :: split separator rest
      else
        match split separator rest with
        | piece :: pieces => String c piece :: pieces
        | [] => [String c EmptyString]
        end
  end.

(** A line terminator, which [.] does not match, starts the string:
    LF, CR, U+2028 or U+2029. *)
Definition lineTerminatorAt (s : string) : bool :=
  match s with
  | EmptyString => false
  | String c1 rest =>
      (c1 =? "010")%char
      || (c1 =? "013")%char
      || ((c1 =? "226")%char
          && match rest with
             | String c2 (String c3 _) =>
                 (c2 =? "128")%char
                 && ((c3 =? "168")%char || (c3 =? "169")%char)
             | _ => false
             end)
  end.

(** [(.*?);] matched at the start of the string: the capture, as short
    as it can be. *)
Fixpoint lazyUpToSemicolon (s : string) : option string :=
  match s with
  | EmptyString => None
  | String c rest =>
      if (c =? ";")%char then Some EmptyString
      else if lineTerminatorAt s then None
      else
        match lazyUpToSemicolon rest with
        | Some capture => Some (String c capture)
        | None => None
        end
  end.

(** [s.match(/:(.*?);/)]: group 1 of the leftmost match, [None] for
    [null]. *)
Fixpoint matchMime (s : string) : option string :=
  match s with
  | EmptyString => None
  | String c rest =>
      if (c =? ":")%char
      then
        match lazyUpToSemicolon rest with
        | Some capture => Some capture
        | None => matchMime rest
        end
      else matchMime rest
  end.

(** [{ mimeType, data }] *)
Record InlineData := { mimeType : string; data : string }.

Definition dataUrlToParts (dataUrl : string) : result InlineData :=
  let arr := split "," dataUrl in
  if (length arr <? 2)%nat then Error "Invalid data URL"
  else
    match matchMime (nth 0 arr EmptyString) with
    | None => Error "Could not parse MIME type from data URL"
    | Some mime =>
        if mime =? ""
        then Error "Could not parse MIME type from data URL"
        else Ok {| mimeType := mime; data := nth 1 arr EmptyString |}
    end.

(** The character occurs in the string. *)
Fixpoint occurs (c : ascii) (s : string) : bool :=
  match s with
  | EmptyString => false
  | String c' rest => (c' =? c)%char || occurs c rest
  end.

(** No line terminator starts anywhere in the string. *)
Fixpoint oneLine (s : string) : bool :=
  match s with
  | EmptyString => true
  | String _ rest => negb (lineTerminatorAt s) && oneLine rest
  end.

End DataUrl.

(** ** The generation client ([services/geminiService.ts]) *)

Module Client.

Import Gemini.

(** A part of a request: [{ inlineData: { mimeType, data } }] or
    [{ text }]. *)
Inductive RequestPart :=
| InlinePart (inlineData : DataUrl.InlineData)
| TextPart (text : string).

Inductive Modality := IMAGE | TEXT.

(** The argument of [ai.models.generateContent]. *)
Record GenerateContentParameters :=
  { requestModel : string;
    contents : list RequestPart;
    responseModalities : list Modality }.

Definition model : string := "gemini-2.5-flash-image-preview".

Definition logoPrompt : string :=
  "Replace the " ++ JS.dquote ++ "TASTY BOX" ++ JS.dquote
    ++ " text on the first image (the box) with the second image (the logo). The logo must be placed realistically on the box's front, matching the lighting, texture, and perspective. Output ONLY the resulting image.".

Definition anglePrompt (angleInstruction : JS.value) : string :=
  "Take the provided image of a product box. Generate a new image showing the exact same box and logo, but from a different angle described as: "
    ++ JS.dquote ++ JS.template angleInstruction ++ JS.dquote
    ++ ". Keep the style, lighting, and background consistent. Output only the newly generated image.".

(** The argument [generateLogoOnBoxImage] passes to
    [generateContent]. *)
Definition logoRequest (boxImagePart logoImagePart : RequestPart)
  : GenerateContentParameters :=
  {| requestModel := model;
     contents := [boxImagePart; logoImagePart; TextPart logoPrompt];
     responseModalities := [IMAGE; TEXT] |}.

(** The argument [generateAngleVariation] passes to
    [generateContent]. *)
Definition angleRequest (boxImagePart : RequestPart)
  (angleInstruction : JS.value) : GenerateContentParameters :=
  {| requestModel := model;
     contents := [boxImagePart; TextPart (anglePrompt angleInstruction)];
     responseModalities := [IMAGE; TEXT] |}.

Definition dataUrlToPart (dataUrl : string)
  : DataUrl.result RequestPart :=
  match DataUrl.dataUrlToParts dataUrl with
  | DataUrl.Ok parts => DataUrl.Ok (InlinePart parts)
  | DataUrl.Error message => DataUrl.Error message
  end.

Section WithHost.

(** Thrown values, with [new Error(message)]; the host's [Blob]s; the
    host's [String.prototype.trim]. *)
Variable Thrown : Type.
Variable newError : string -> Thrown.
Variable WebBlob : Type.
Variable trim : string -> string.

(** What [fetch] resolves with: [response.ok], and how
    [response.blob()] settles. *)
Record Response := { ok : bool; blob : Thrown + WebBlob }.

(** What a [FileReader] is given to read. *)
Inductive Readable :=
| blobSource (b : WebBlob)
| fileSource (f : App.File).

(** An [async] function as the tree of its awaits.  Each node is one call
    into the host, continued with the way the call settles: [inl] a
    rejection (for a [FileReader], the [onerror] event), [inr] the
    value.  [Pending] is a promise that nothing resolves or rejects. *)
Inductive Async (A : Type) : Type :=
| Resolve (a : A)
| Reject (e : Thrown)
| Pending
| Fetch (url : string) (k : Thrown + Response -> Async A)
| Read (source : Readable) (k : Thrown + string -> Async A)
| Generate (params : GenerateContentParameters)
    (k : Thrown + GenerateContentResponse -> Async A).

Arguments Resolve {A} a.
Arguments Reject {A} e.
Arguments Pending {A}.
Arguments Fetch {A} url k.
Arguments Read {A} source k.
Arguments Generate {A} params k.

(** [await m] followed by [f]. *)
Fixpoint bind {A B : Type} (m : Async A) (f : A -> Async B) : Async B :=
  match m with
  | Resolve a => f a
  | Reject e => Reject e
  | Pending => Pending
  | Fetch url k => Fetch url (fun r => bind (k r) f)
  | Read source k => Read source (fun r => bind (k r) f)
  | Generate params k => Generate params (fun r => bind (k r) f)
  end.

(** A synchronous call inside an [async] body: a throw rejects. *)
Definition call {A : Type} (r : DataUrl.result A) : Async A :=
  match r with
  | DataUrl.Ok a => Resolve a
  | DataUrl.Error message => Reject (newError message)
  end.

(** [fileToPart]: the promise around the reader settles with the data
    URL or the error event; the URL is parsed after the [await]. *)
Definition fileToPart (file : App.File) : Async RequestPart :=
  Read (fileSource file)
    (fun r =>
       match r with
       | inl e => Reject e
       | inr dataUrl => call (dataUrlToPart dataUrl)
       end).

(** [urlToPart]: the data URL is parsed inside [reader.onload]; a throw
    there leaves the returned promise unsettled. *)
Definition urlToPart (url : string) : Async RequestPart :=
  Fetch url
    (fun r =>
       match r with
       | inl e => Reject e
       | inr response =>
           if negb (ok response)
           then Reject (newError ("Failed to fetch image from URL: " ++ url))
           else
             match blob response with
             | inl e => Reject e
             | inr b =>
                 Read (blobSource b)
                   (fun r =>
                      match r with
                      | inl e => Reject e
                      | inr dataUrl =>
                          match dataUrlToPart dataUrl with
                          | DataUrl.Ok part => Resolve part
                          | DataUrl.Error _ => Pending
                          end
                      end)
             end
       end).

(** [return handleApiResponse(response)] after the awaited
    [generateContent]. *)
Definition interpret (r : Thrown + GenerateContentResponse)
  : Async string :=
  match r with
  | inl e => Reject e
  | inr response =>
      match handleApiResponse trim response with
      | Returns url => Resolve url
      | Throws message => Reject (newError message)
      end
  end.

Definition generateLogoOnBoxImage (box : App.BoxItem)
  (logoImage : App.File) : Async string :=
  bind
    (if prefix "data:" (App.url box)
     then call (dataUrlToPart (App.url box))
     else urlToPart (App.url box))
    (fun boxImagePart =>
       bind (fileToPart logoImage)
         (fun logoImagePart =>
            Generate (logoRequest boxImagePart logoImagePart)
              interpret)).

Definition generateAngleVariation (boxImageUrl : string)
  (angleInstruction : JS.value) : Async string :=
  bind (call (dataUrlToPart boxImageUrl))
    (fun boxImagePart =>
       Generate (angleRequest boxImagePart angleInstruction) interpret).

(** How the host answers each call. *)
Record Host :=
  { fetched : string -> Thrown + Response;
    read : Readable -> Thrown + string;
    generated : GenerateContentParameters
                -> Thrown + GenerateContentResponse }.

(** The calls made into the host, in order. *)
Inductive Call :=
| FetchCall (url : string)
| ReadCall (source : Readable)
| GenerateCall (params : GenerateContentParameters).

(** How an [async] function ends. *)
Inductive Settlement (A : Type) : Type :=
| Fulfils (a : A)
| Rejects (e : Thrown)
| NeverSettles.

Arguments Fulfils {A} a.
Arguments Rejects {A} e.
Arguments NeverSettles {A}.

(** The calls an [async] function makes on a host and how it ends. *)
Fixpoint exec {A : Type} (host : Host) (m : Async A)
  : list Call * Settlement A :=
  match m with
  | Resolve a => ([], Fulfils a)
  | Reject e => ([], Rejects e)
  | Pending => ([], NeverSettles)
  | Fetch url k =>
      let (calls, outcome) := exec host (k (fetched host url)) in
      (FetchCall url :: calls, outcome)
  | Read source k =>
      let (calls, outcome) := exec host (k (read host source)) in
      (ReadCall source :: calls, outcome)
  | Generate params k =>
      let (calls, outcome) := exec host (k (generated host params)) in
      (GenerateCall params :: calls, outcome)
  end.

(** The request of a suspended handler, as the client runs it. *)
Definition perform (request : App.Request) : Async string :=
  match request with
  | App.generateLogoOnBoxImage box logo => generateLogoOnBoxImage box logo
  | App.generateAngleVariation boxImageUrl angleInstruction =>
      generateAngleVariation boxImageUrl angleInstruction
  end.

(** A handler of the controller run against the host: a request that
    never settles leaves the handler suspended on the committed state. *)
Definition complete (host : Host) (h : App.Handler Thrown) : App.State :=
  match h with
  | App.Done s => s
  | App.Await s request resume =>
      match snd (exec host (perform request)) with
      | Fulfils newImageUrl => resume (App.Fulfilled newImageUrl) s
      | Rejects err => resume (App.Rejected err) s
      | NeverSettles => s
      end
  end.

(** What the presentation layer calls. *)
Inductive UICall :=
| StartCall (box : App.BoxItem) (logo : App.File)
| SelectViewCall (newIndex : Z)
| StartOverCall.

Definition serve (getFriendlyErrorMessage : Thrown -> string -> string)
  (host : Host) (c : UICall) (s : App.State) : App.State :=
  match c with
  | StartCall box logo =>
      complete host
        (App.handleStart getFriendlyErrorMessage box logo s)
  | SelectViewCall newIndex =>
      complete host
        (App.handleAngleSelect getFriendlyErrorMessage newIndex s)
  | StartOverCall => App.handleStartOver s
  end.

(** A session: the calls of the presentation layer, each run to its end
    against the host as it answers at that time. *)
Definition session (getFriendlyErrorMessage : Thrown -> string -> string)
  (calls : list (UICall * Host)) : App.State :=
  fold_left
    (fun s c => serve getFriendlyErrorMessage (snd c) (fst c) s) calls
    App.initialState.

End WithHost.

Arguments Resolve {Thrown WebBlob A} a.
Arguments Reject {Thrown WebBlob A} e.
Arguments Pending {Thrown WebBlob A}.
Arguments Fetch {Thrown WebBlob A} url k.
Arguments Read {Thrown WebBlob A} source k.
Arguments Generate {Thrown WebBlob A} params k.
Arguments Fulfils {Thrown A} a.
Arguments Rejects {Thrown A} e.
Arguments NeverSettles {Thrown A}.
Arguments blobSource {WebBlob} b.
Arguments fileSource {WebBlob} f.
Arguments FetchCall {WebBlob} url.
Arguments ReadCall {WebBlob} source.
Arguments GenerateCall {WebBlob} params.
Arguments exec {Thrown WebBlob A} host m.
Arguments bind {Thrown WebBlob A B} m f.
Arguments ok {Thrown WebBlob} r.
Arguments blob {Thrown WebBlob} r.
Arguments fetched {Thrown WebBlob} h url.
Arguments read {Thrown WebBlob} h source.
Arguments generated {Thrown WebBlob} h params.

End Client.

(** ** The start screen ([wardrobe.ts], [components/StartScreen.tsx]) *)

Module StartScreen.

Definition defaultBox : App.BoxItem :=
  {| App.id := "cardboard-box";
     App.name := "Caja de Regalo de Cartón";
     App.url := "https://i.imgur.com/8N4R42t.jpeg" |}.

(** The three [useState] cells of [StartScreen]. *)
Record State :=
  { logoFile : option App.File;
    logoPreview : JS.value;
    error : JS.value }.

Definition initialState : State :=
  {| logoFile := None; logoPreview := None; error := None |}.

Definition setLogoFile (v : option App.File) (s : State) : State :=
  {| logoFile := v; logoPreview := logoPreview s; error := error s |}.

Definition setLogoPreview (v : JS.value) (s : State) : State :=
  {| logoFile := logoFile s; logoPreview := v; error := error s |}.

Definition setError (v : JS.value) (s : State) : State :=
  {| logoFile := logoFile s; logoPreview := logoPreview s; error := v |}.

(** [handleFileSelect]: the new state, and the file handed to a
    [FileReader] for the preview, if any. *)
Definition handleFileSelect (file : App.File) (s : State)
  : State * option App.File :=
  let s := setError None s in
  if negb (prefix "image/" (App.fileType file))
  then
    (setError
       (Some "Por favor, selecciona un archivo de imagen válido (PNG, JPG, etc.).")
       s,
     None)
  else (setLogoFile (Some file) s, Some file).

(** [reader.onload] of the preview reader. *)
Definition previewLoaded (result : JS.value) (s : State) : State :=
  setLogoPreview result s.

(** [handleFileChange], given [e.target.files]. *)
Definition handleFileChange (files : option (list App.File)) (s : State)
  : State * option App.File :=
  match files with
  | Some (file :: _) => handleFileSelect file s
  | _ => (s, None)
  end.

(** The button shown over the preview. *)
Definition changeLogo (s : State) : State :=
  setLogoPreview None (setLogoFile None s).

(** [handleGenerateClick]: the new state, and the argument [onStart] is
    called with, if it is called. *)
Definition handleGenerateClick (s : State)
  : State * option (App.BoxItem * App.File) :=
  match logoFile s with
  | Some logo => (s, Some (defaultBox, logo))
  | None => (setError (Some "Por favor, sube un logo primero.") s, None)
  end.

(** What happens on the start screen. *)
Inductive Event :=
| FilesChosen (files : option (list App.File))
| PreviewLoaded (result : JS.value)
| ChangeClicked
| GenerateClicked.

(** The state after an event, and the [onStart] call it made, if
    any. *)
Definition step (e : Event) (s : State)
  : State * option (App.BoxItem * App.File) :=
  match e with
  | FilesChosen files => (fst (handleFileChange files s), None)
  | PreviewLoaded result => (previewLoaded result s, None)
  | ChangeClicked => (changeLogo s, None)
  | GenerateClicked => handleGenerateClick s
  end.

(** The [onStart] calls made over a sequence of events, oldest first. *)
Fixpoint started (events : list Event) (s : State)
  : list (App.BoxItem * App.File) :=
  match events with
  | [] => []
  | e :: rest =>
      match step e s with
      | (s', Some call) => call :: started rest s'
      | (s', None) => started rest s'
      end
  end.

End StartScreen.

(** ** The event loop

    Handlers and continuations run one at a time, each to its end; a
    request in flight is a continuation waiting for its outcome, and any
    of them may settle between any two calls.  A handler is the closure
    the last render made: what it reads of the state is what that render
    saw, while what it sets lands on the latest state.  A render may
    happen between any two events. *)

Module EventLoop.

Import App.

Section Loop.

Variable Thrown : Type.
Variable getFriendlyErrorMessage : Thrown -> string -> string.

(** [handleAngleSelect] as the closure of a render that saw
    [closure], called when the state is [s]: [isLoading],
    [currentAngleIndex], [selectedBox] and [generatedImages] are read
    from [closure]; the setters act on [s]. *)
Definition handleAngleSelectFrom (closure : State) (newIndex : Z)
  (s : State) : Handler Thrown :=
  if isLoading closure
     || (newIndex =? currentAngleIndex closure)%Z
     || negb (JS.defined (selectedBox closure))
  then Done s
  else
    let angleInstruction := JS.index ANGLE_INSTRUCTIONS newIndex in
    if JS.truthy
         (Obj.get (generatedImages closure) (JS.template angleInstruction))
    then Done (setCurrentAngleIndex newIndex s)
    else
      match JS.index (Obj.values (generatedImages closure)) 0 with
      | None => Done s
      | Some baseImageForAngleChange =>
          if negb (JS.truthy (Some baseImageForAngleChange))
          then Done s
          else
            let prevAngleIndex := currentAngleIndex closure in
            let s := setError None s in
            let s := setIsLoading true s in
            let s :=
              setLoadingMessage
                ("Cambiando la vista a " ++ JS.dquote
                   ++ JS.template angleInstruction ++ JS.dquote
                   ++ "...") s in
            let s := setCurrentAngleIndex newIndex s in
            Await s
              (generateAngleVariation baseImageForAngleChange
                 angleInstruction)
              (resumeAngleSelect getFriendlyErrorMessage prevAngleIndex
                 angleInstruction)
      end.

(** The latest state, the state the last render saw, and the
    continuations of the requests in flight. *)
Record Config :=
  { state : State;
    rendered : State;
    inFlight : list (Settled Thrown -> State -> State) }.

Definition boot : Config :=
  {| state := initialState; rendered := initialState; inFlight := [] |}.

Inductive Event :=
| CallStart (box : BoxItem) (logo : File)
| CallSelectView (newIndex : Z)
| CallStartOver
| Settle (n : nat) (outcome : Settled Thrown)
| Render.

(** The configuration after a handler ran up to its return or await. *)
Definition enter (h : Handler Thrown) (c : Config) : Config :=
  match h with
  | Done s => {| state := s; rendered := rendered c; inFlight := inFlight c |}
  | Await s _ resume =>
      {| state := s;
         rendered := rendered c;
         inFlight := (inFlight c ++ [resume])%list |}
  end.

(** The list without its [n]-th element. *)
Fixpoint without {A : Type} (n : nat) (l : list A) : list A :=
  match l, n with
  | [], _ => []
  | _ :: rest, O => rest
  | x :: rest, S m => x :: without m rest
  end.

Definition step (e : Event) (c : Config) : Config :=
  match e with
  | CallStart box logo =>
      enter (handleStart getFriendlyErrorMessage box logo (state c)) c
  | CallSelectView newIndex =>
      enter (handleAngleSelectFrom (rendered c) newIndex (state c)) c
  | CallStartOver =>
      {| state := handleStartOver (state c);
         rendered := rendered c;
         inFlight := inFlight c |}
  | Settle n outcome =>
      match nth_error (inFlight c) n with
      | Some resume =>
          {| state := resume outcome (state c);
             rendered := rendered c;
             inFlight := without n (inFlight c) |}
      | None => c
      end
  | Render =>
      {| state := state c; rendered := state c; inFlight := inFlight c |}
  end.

Definition play (events : list Event) (c : Config) : Config :=
  fold_left (fun c e => step e c) events c.

(** Every image a settled request delivers is a non-empty string. *)
Definition delivers (e : Event) : Prop :=
  match e with
  | Settle _ (Fulfilled newImageUrl) => newImageUrl <> ""
  | _ => True
  end.

End Loop.

Arguments CallStart {Thrown} box logo.
Arguments CallSelectView {Thrown} newIndex.
Arguments CallStartOver {Thrown}.
Arguments Settle {Thrown} n outcome.
Arguments Render {Thrown}.
Arguments boot {Thrown}.
Arguments state {Thrown} c.
Arguments rendered {Thrown} c.
Arguments inFlight {Thrown} c.
Arguments delivers {Thrown} e.

End EventLoop.

(** ** Invariants of sessions *)

Module Invariant.

Import App.

(** The cache is an object: no key twice. *)
Definition validObject (s : State) : Prop :=
  NoDup (Obj.keys (generatedImages s)).

(** Every key of the cache is an angle instruction, or the key that the
    [undefined] of an index out of range is coerced to. *)
Definition knownKeys (s : State) : Prop :=
  Forall (fun key => In key ANGLE_INSTRUCTIONS \/ key = "undefined")
    (Obj.keys (generatedImages s)).

(** The selected view has its image, unless the cache is empty. *)
Definition selectionCached (s : State) : Prop :=
  generatedImages s = []
  \/ exists image,
      Obj.get (generatedImages s) (Spec.selectedView s) = Some image.

(** The oldest entry is the front view. *)
Definition frontFirst (s : State) : Prop :=
  match generatedImages s with
  | [] => True
  | (key, _) :: _ => key = "Vista Frontal"
  end.

(** Box and logo are selected together. *)
Definition paired (s : State) : Prop :=
  selectedBox s = None <-> logoFile s = None.

(** Nothing is pending. *)
Definition idle (s : State) : Prop :=
  isLoading s = false /\ loadingMessage s = "".

(** Every cached image is a data URL the interpreter built. *)
Definition interpreterImages (s : State) : Prop :=
  Forall (fun entry => exists b, snd entry = Gemini.dataUrl b)
    (generatedImages s).

End Invariant.

(** ** What [App] renders (lines 131-206) *)

Module Render.

Import App.

(** [!selectedBox || !logoFile]: the start screen is rendered, the
    canvas and its controls are not. *)
Definition showsStartScreen (s : State) : bool :=
  negb (JS.defined (selectedBox s)) || negb (JS.defined (logoFile s)).

End Render.

(** ** Properties of the cache kept by the event loop *)

Module LoopInvariant.

Import App EventLoop.

Section Kept.

Variable Thrown : Type.

(** A property of caches, and the images it allows to be delivered. *)
Variable P : Obj.t -> Prop.
Variable okImage : string -> Prop.

Definition okOutcome (outcome : Settled Thrown) : Prop :=
  match outcome with
  | Fulfilled newImageUrl => okImage newImageUrl
  | Rejected _ => True
  end.

Definition okEvent (e : Event Thrown) : Prop :=
  match e with
  | Settle _ outcome => okOutcome outcome
  | _ => True
  end.

(** A continuation keeps the property whenever it is run. *)
Definition keeps (resume : Settled Thrown -> State -> State) : Prop :=
  forall outcome t,
    okOutcome outcome ->
    P (generatedImages t) -> P (generatedImages (resume outcome t)).

Definition good (c : Config Thrown) : Prop :=
  P (generatedImages (state c)) /\ Forall keeps (inFlight c).

End Kept.

End LoopInvariant.

(** ** Concrete hosts *)

Module HostSample.

Import Gemini App Client.

(** Thrown values are error messages; a host blob is the data URL a
    reader makes of it. *)
Definition newError (message : string) : string := message.

Definition pngAnswer (payload : string) : GenerateContentResponse :=
  {| promptFeedback := None;
     candidates :=
       Some [Sample.candidate [Sample.pngPart payload] (Some "STOP")];
     text := None |}.

Definition readAs (boxUrl logoUrl : string) (source : Readable string)
  : string + string :=
  match source with
  | blobSource _ => inr boxUrl
  | fileSource _ => inr logoUrl
  end.

(** Every call succeeds. *)
Definition okHost : Host string string :=
  {| fetched :=
       fun _ => inr {| ok := true; blob := inr "box.jpeg" |};
     read :=
       readAs "data:image/jpeg;base64,BOX" "data:image/png;base64,LOGO";
     generated := fun _ => inr (pngAnswer "AAAA") |}.

(** The box image is not found. *)
Definition notFoundHost : Host string string :=
  {| fetched :=
       fun _ => inr {| ok := false; blob := inl "no body" |};
     read :=
       readAs "data:image/jpeg;base64,BOX" "data:image/png;base64,LOGO";
     generated := fun _ => inr (pngAnswer "AAAA") |}.

(** The box image is fetched with an empty body, which reads as
    [data:]. *)
Definition emptyBodyHost : Host string string :=
  {| fetched :=
       fun _ => inr {| ok := true; blob := inr "empty" |};
     read := readAs "data:" "data:image/png;base64,LOGO";
     generated := fun _ => inr (pngAnswer "AAAA") |}.

(** The logo file is empty. *)
Definition emptyLogoHost : Host string string :=
  {| fetched :=
       fun _ => inr {| ok := true; blob := inr "box.jpeg" |};
     read := readAs "data:image/jpeg;base64,BOX" "data:";
     generated := fun _ => inr (pngAnswer "AAAA") |}.

Definition inlineBox : BoxItem :=
  {| id := "inline-box";
     name := "Caja";
     url := "data:image/png;base64,BOX" |}.

Definition pngBlob : Blob :=
  {| mimeType := Some "image/png"; data := Some "AAAA" |}.

Definition pngParts (payload : string) : DataUrl.InlineData :=
  {| DataUrl.mimeType := "image/png"; DataUrl.data := payload |}.

(** A logo is chosen, a text file is refused, the button is clicked. *)
Definition textFile : File :=
  {| fileName := "notes.txt"; fileType := "text/plain" |}.

Definition clicks : list StartScreen.Event :=
  [ StartScreen.GenerateClicked;
    StartScreen.FilesChosen (Some [Sample.logoX]);
    StartScreen.FilesChosen (Some [textFile]);
    StartScreen.GenerateClicked ].

(** The request for the logo on the inline box, and the request for a
    third view of [pngBlob], as the provider should receive them. *)
Definition logoOnBoxRequest : GenerateContentParameters :=
  {| requestModel := "gemini-2.5-flash-image-preview";
     contents :=
       [ InlinePart (pngParts "BOX");
         InlinePart (pngParts "LOGO");
         TextPart
           ("Replace the " ++ JS.dquote ++ "TASTY BOX" ++ JS.dquote
              ++ " text on the first image (the box) with the second image (the logo). The logo must be placed realistically on the box's front, matching the lighting, texture, and perspective. Output ONLY the resulting image.") ];
     responseModalities := [IMAGE; TEXT] |}.

Definition topViewRequest : GenerateContentParameters :=
  {| requestModel := "gemini-2.5-flash-image-preview";
     contents :=
       [ InlinePart (pngParts "AAAA");
         TextPart
           ("Take the provided image of a product box. Generate a new image showing the exact same box and logo, but from a different angle described as: "
              ++ JS.dquote ++ "Vista Superior" ++ JS.dquote
              ++ ". Keep the style, lighting, and background consistent. Output only the newly generated image.") ];
     responseModalities := [IMAGE; TEXT] |}.

(** The provider is unreachable. *)
Definition offlineHost : Host string string :=
  {| fetched :=
       fun _ => inr {| ok := true; blob := inr "box.jpeg" |};
     read :=
       readAs "data:image/jpeg;base64,BOX" "data:image/png;base64,LOGO";
     generated := fun _ => inl "offline" |}.

(** Start with an inline box while the provider is unreachable, start
    again once it answers, then a second view. *)
Definition inlineCalls : list (UICall * Host string string) :=
  [ (StartCall inlineBox Sample.logoX, offlineHost);
    (StartCall inlineBox Sample.logoX, okHost);
    (SelectViewCall 1, okHost) ].

End HostSample.

(** ** Facts about the JavaScript operators and objects *)

Module JSFacts.

Lemma truthy_Some (v : JS.value) :
  JS.truthy v = true -> exists s, v = Some s /\ s <> "".
Proof.
  destruct v as [s|]; simpl; [|discriminate].
  intros H. exists s. split; [reflexivity|].
  intros ->. discriminate.
Qed.

Lemma truthy_false (v : JS.value) :
  JS.truthy v = false -> v = None \/ v = Some "".
Proof.
  destruct v as [s|]; simpl; [|now left].
  destruct (String.eqb_spec s ""); [subst; now right|discriminate].
Qed.

Lemma truthy_nonempty (s : string) : s <> "" -> JS.truthy (Some s) = true.
Proof.
  intros H. simpl. destruct (String.eqb_spec s ""); [contradiction|reflexivity].
Qed.

Lemma index_head {A : Type} (l : list A) :
  JS.index l 0 = match l with x :: _ => Some x | [] => None end.
Proof. destruct l; reflexivity. Qed.

(** [Array.prototype.find] stops at the first element that passes. *)
Lemma find_first {A : Type} (f : A -> bool) (l : list A) (x : A) :
  find f l = Some x ->
  exists before after,
    l = (before ++ x :: after)%list
    /\ Forall (fun y => f y = false) before
    /\ f x = true.
Proof.
  induction l as [|y l IH]; simpl; [discriminate|].
  destruct (f y) eqn:Hy.
  - intros [= ->]. exists [], l. repeat split; [constructor|assumption].
  - intros H. destruct (IH H) as (before & after & -> & Hb & Hx).
    exists (y :: before), after. repeat split; [constructor|]; assumption.
Qed.

(** The first element outside [P] of a list is where it is and what it
    is, however the list is cut. *)
Lemma first_outside_unique {A : Type} (P Q : A -> Prop)
  (l1 l1' l2 l2' : list A) (x x' : A) :
  (forall y, P y -> Q y -> False) ->
  (l1 ++ x :: l2 = l1' ++ x' :: l2')%list ->
  Forall P l1 -> Q x -> Forall P l1' -> Q x' ->
  l1 = l1' /\ x = x' /\ l2 = l2'.
Proof.
  intros HPQ. revert l1'.
  induction l1 as [|a l1 IH]; intros [|a' l1'] E H1 Hx H1' Hx'; simpl in E.
  - injection E as -> ->. auto.
  - injection E as -> _. inversion H1'; subst. exfalso; eauto.
  - injection E as -> _. inversion H1; subst. exfalso; eauto.
  - injection E as -> E. inversion H1; inversion H1'; subst.
    destruct (IH l1' E) as (-> & -> & ->); auto.
Qed.

End JSFacts.

Module ObjFacts.

Lemma get_set_same (o : Obj.t) (k v : string) :
  Obj.get (Obj.set o k v) k = Some v.
Proof.
  induction o as [|[k' v'] o IH]; simpl.
  - now rewrite String.eqb_refl.
  - destruct (String.eqb_spec k' k) as [->|Hk]; simpl.
    + now rewrite String.eqb_refl.
    + destruct (String.eqb_spec k' k); [contradiction|assumption].
Qed.

Lemma get_set_other (o : Obj.t) (k k' v : string) :
  k' <> k -> Obj.get (Obj.set o k v) k' = Obj.get o k'.
Proof.
  intros Hk. induction o as [|[k0 v0] o IH]; simpl.
  - destruct (String.eqb_spec k k'); [congruence|reflexivity].
  - destruct (String.eqb_spec k0 k) as [->|Hk0]; simpl.
    + destruct (String.eqb_spec k k'); [congruence|reflexivity].
    + now rewrite IH.
Qed.

(** Setting a property never moves the first one. *)
Lemma set_keeps_first_key (o : Obj.t) (k v : string) :
  o <> [] -> option_map fst (hd_error (Obj.set o k v))
             = option_map fst (hd_error o).
Proof.
  destruct o as [|[k0 v0] o]; [congruence|]; intros _; simpl.
  destruct (k0 =? k); reflexivity.
Qed.

Lemma get_singleton (k v key image : string) :
  Obj.get [(k, v)] key = Some image -> key = k.
Proof.
  cbn [Obj.get]. destruct (String.eqb_spec k key); [auto|discriminate].
Qed.

Lemma set_Forall (P : string * string -> Prop) (o : Obj.t)
  (k v : string) :
  Forall P o -> (forall k', P (k', v)) -> Forall P (Obj.set o k v).
Proof.
  intros Ho Hv. induction Ho as [|[k0 v0] o H0 Ho IH]; simpl.
  - constructor; [apply Hv|constructor].
  - destruct (k0 =? k); constructor; auto.
Qed.

Lemma get_Forall (P : string * string -> Prop) (o : Obj.t)
  (k v : string) :
  Forall P o -> Obj.get o k = Some v -> exists k', P (k', v).
Proof.
  intros Ho. induction Ho as [|[k0 v0] o H0 Ho IH]; simpl; [discriminate|].
  destruct (k0 =? k); [|exact IH].
  intros [= <-]. eauto.
Qed.

Lemma get_Some_nonempty (o : Obj.t) (k v : string) :
  Obj.get o k = Some v -> o <> [].
Proof. destruct o; [discriminate|congruence]. Qed.

End ObjFacts.

(** ** The interpreter follows the ordered fallback *)

Module GeminiFacts.

Import Gemini Spec JSFacts.

Lemma imagePart_found (c : Candidate) (p : Part) :
  imagePart c = Some p -> exists b, inlineData p = Some b /\ hasImage c b.
Proof.
  unfold imagePart.
  destruct (content c) as [ct|] eqn:Hct; [|discriminate].
  destruct (parts ct) as [ps|] eqn:Hps; [|discriminate].
  intros Hfind.
  destruct (find_first _ _ _ Hfind) as (before & after & -> & Hb & Hp).
  destruct (inlineData p) as [b|] eqn:Hin; [|discriminate].
  exists b. split; [reflexivity|].
  exists ct, before, p, after. repeat split; try assumption.
  eapply Forall_impl; [|exact Hb]. simpl.
  intros q. destruct (inlineData q); [discriminate|reflexivity].
Qed.

Lemma imagePart_missing (c : Candidate) :
  imagePart c = None -> noImage c.
Proof.
  unfold imagePart, noImage. intros H ct ps p Hct Hps Hin.
  rewrite Hct, Hps in H.
  pose proof (find_none _ _ H p Hin) as Hp. simpl in Hp.
  destruct (inlineData p); [discriminate|reflexivity].
Qed.

Lemma hasImage_noImage (c : Candidate) (b : Blob) :
  noImage c -> hasImage c b -> False.
Proof.
  intros Hno (ct & before & p & after & Hct & Hps & _ & Hp).
  assert (inlineData p = None) as E.
  { apply (Hno ct _ p Hct Hps). apply in_or_app. right. now left. }
  congruence.
Qed.

Lemma hasImage_unique (c : Candidate) (b b' : Blob) :
  hasImage c b -> hasImage c b' -> b = b'.
Proof.
  intros (ct & l1 & p & l2 & Hct & Hps & Hl1 & Hp)
         (ct' & l1' & p' & l2' & Hct' & Hps' & Hl1' & Hp').
  assert (ct' = ct) by congruence. subst ct'.
  assert (l1 ++ p :: l2 = l1' ++ p' :: l2')%list as E by congruence.
  destruct (first_outside_unique
              (fun q => inlineData q = None)
              (fun q => inlineData q <> None)
              l1 l1' l2 l2' p p') as (_ & -> & _);
    try assumption; try congruence.
Qed.

Lemma firstImage_found (cs : list Candidate) (u : string) :
  firstImage cs = Some u ->
  exists before c after b,
    cs = (before ++ c :: after)%list
    /\ Forall noImage before /\ hasImage c b /\ u = dataUrl b.
Proof.
  induction cs as [|c cs IH]; simpl; [discriminate|].
  destruct (imagePart c) as [p|] eqn:Hc.
  - destruct (imagePart_found _ _ Hc) as (b & Hb & Himg).
    rewrite Hb. intros [= <-].
    exists [], c, cs, b. repeat split; [constructor|assumption].
  - intros H. destruct (IH H) as (before & c' & after & b & -> & Hb & Hc' & ->).
    exists (c :: before), c', after, b. repeat split; try assumption.
    constructor; [now apply imagePart_missing|assumption].
Qed.

Lemma firstImage_missing (cs : list Candidate) :
  firstImage cs = None -> Forall noImage cs.
Proof.
  induction cs as [|c cs IH]; simpl; [constructor|].
  destruct (imagePart c) as [p|] eqn:Hc.
  - destruct (imagePart_found _ _ Hc) as (b & -> & _). discriminate.
  - intros H. constructor; [now apply imagePart_missing|auto].
Qed.

(** What the interpreter returns is never the empty string. *)
Lemma dataUrl_nonempty (b : Blob) : dataUrl b <> "".
Proof. unfold dataUrl. cbn [append]. discriminate. Qed.

End GeminiFacts.

Module InterpreterProps.

Import Gemini Spec JSFacts GeminiFacts.

Section WithTrim.

Variable trim : string -> string.

Lemma afterBlockCheck_interprets (r : GenerateContentResponse) :
  notBlocked r -> interprets trim r (afterBlockCheck trim r).
Proof.
  intros Hnb. unfold afterBlockCheck.
  destruct (firstImage _) as [u|] eqn:Himg.
  - destruct (firstImage_found _ _ Himg)
      as (before & c & after & b & Hcs & Hb & Hc & ->).
    destruct (candidates r) as [cs|] eqn:Hr.
    + subst cs. now apply CanonicalImage with before c after.
    + destruct before; discriminate.
  - assert (noImageAtAll r) as Hno.
    { intros cs Hcs. rewrite Hcs in Himg. now apply firstImage_missing. }
    destruct (JS.truthy _ && _) eqn:Hfin.
    + apply andb_true_iff in Hfin. destruct Hfin as [Ht Hstop].
      destruct (truthy_Some _ Ht) as (reason & Hreason & Hne).
      rewrite Hreason in *. simpl in *.
      destruct (candidates r) as [[|c rest]|] eqn:Hr; try discriminate.
      apply AbnormalCompletionError with c rest; try assumption.
      intros ->. discriminate.
    + replace (match text r with
               | Some s => Some (trim s)
               | None => None
               end) with (option_map trim (text r))
        by (destruct (text r); reflexivity).
      apply NoImageProducedError; try assumption.
      intros c rest Hr. rewrite Hr in Hfin.
      apply andb_false_iff in Hfin. destruct Hfin as [Hf|Hf].
      * left. now apply truthy_false.
      * right. apply negb_false_iff in Hf.
        destruct (finishReason c) as [x|]; simpl in Hf.
        -- apply String.eqb_eq in Hf. now subst.
        -- discriminate.
Qed.

(** The order of the four steps, on the completions of the code. *)
Lemma handleApiResponse_interprets (r : GenerateContentResponse) :
  interprets trim r (handleApiResponse trim r).
Proof.
  unfold handleApiResponse.
  destruct (promptFeedback r) as [pf|] eqn:Hpf.
  - destruct (JS.truthy (blockReason pf)) eqn:Hb.
    + destruct (truthy_Some _ Hb) as (reason & Hreason & Hne).
      rewrite Hreason. simpl.
      now apply BlockedRequestError.
    + apply afterBlockCheck_interprets.
      intros pf' Hpf'. rewrite Hpf in Hpf'. injection Hpf' as <-.
      now apply truthy_false.
  - apply afterBlockCheck_interprets.
    intros pf' Hpf'. congruence.
Qed.

Lemma blockedMessage_written (reason : string) (explanation : JS.value) :
  blockedMessage reason explanation
  = InterpreterSpec.failureMessage
      (InterpreterSpec.BlockedRequest reason explanation).
Proof.
  unfold blockedMessage, InterpreterSpec.failureMessage, JS.or_else.
  destruct explanation as [words|]; [|reflexivity].
  destruct (String.eqb_spec words ""); [now subst|reflexivity].
Qed.

Lemma noImageMessage_written (accompanying : JS.value) :
  noImageMessage accompanying
  = InterpreterSpec.failureMessage
      (InterpreterSpec.NoImageProduced accompanying).
Proof.
  unfold noImageMessage, InterpreterSpec.failureMessage.
  destruct accompanying as [[|c words]|]; reflexivity.
Qed.

(** C4.  For every provider response, [handleApiResponse] comes to the
    outcome the ordered fallback of section 4.2 prescribes, and returns
    or throws it in full.  With a block reason present it throws the
    blocked-request message with the reason code and the explanation.
    Otherwise, for the first candidate that has an inline image, it
    returns the data URL made of the MIME type and the payload of that
    candidate's first inline image, whatever any finish reason says.
    Otherwise, when the first candidate's finish reason is present and
    is not STOP, it throws the abnormal-completion message with that
    reason.  Otherwise it throws the no-image message, with the trimmed
    text of the response when that is not empty. *)
Theorem handleApiResponse_ordered_fallback
  (r : GenerateContentResponse) :
  exists outcome,
    InterpreterSpec.prescribes trim r outcome
    /\ handleApiResponse trim r = InterpreterSpec.completionOf outcome.
Proof.
  pose proof (handleApiResponse_interprets r) as H.
  inversion H as [pf reason Hpf Hreason Hne Hres
                 |before c after b Hnb Hcs Hbefore Himg Hres
                 |c rest reason Hnb Hno Hcs Hreason Hne Hstop Hres
                 |Hnb Hno Hfin Hres].
  - exists (InterpreterSpec.BlockedRequest reason (blockReasonMessage pf)).
    split; [now apply InterpreterSpec.Step1|].
    cbn [InterpreterSpec.completionOf].
    now rewrite <- blockedMessage_written.
  - exists (InterpreterSpec.Image b).
    split; [now apply InterpreterSpec.Step2 with before c after|].
    reflexivity.
  - exists (InterpreterSpec.AbnormalCompletion reason).
    split; [now apply InterpreterSpec.Step3 with c rest|].
    reflexivity.
  - exists (InterpreterSpec.NoImageProduced (option_map trim (text r))).
    split; [now apply InterpreterSpec.Step4|].
    cbn [InterpreterSpec.completionOf].
    now rewrite <- noImageMessage_written.
Qed.

(** The four steps exclude one another: the specification prescribes
    one completion per response. *)
Lemma interprets_functional (r : GenerateContentResponse)
  (a b : completion) :
  interprets trim r a -> interprets trim r b -> a = b.
Proof.
  assert (forall pf reason,
             notBlocked r -> promptFeedback r = Some pf ->
             blockReason pf = Some reason -> reason <> "" -> False)
    as Hblock.
  { intros pf reason Hnb Hpf Hreason Hne.
    destruct (Hnb pf Hpf) as [E|E]; congruence. }
  assert (forall before c after img,
             noImageAtAll r ->
             candidates r = Some (before ++ c :: after)%list ->
             hasImage c img -> False)
    as Hnone.
  { intros before c after img Hno Hcs Himg.
    pose proof (Hno _ Hcs) as Hall.
    rewrite Forall_forall in Hall.
    apply (hasImage_noImage c img); [|assumption].
    apply Hall. apply in_or_app. right. now left. }
  assert (forall c rest reason,
             finishedNormally r -> candidates r = Some (c :: rest) ->
             finishReason c = Some reason ->
             reason <> "" -> reason <> "STOP" -> False)
    as Hfin.
  { intros c rest reason Hn Hcs Hreason Hne Hstop.
    destruct (Hn c rest Hcs) as [[E|E]|E]; congruence. }
  intros Ha Hb.
  destruct Ha as [pf reason Hpf Hreason Hne
                 |before c after img Hnb Hcs Hbefore Himg
                 |c rest reason Hnb Hno Hcs Hreason Hne Hstop
                 |Hnb Hno Hn];
    destruct Hb as [pf' reason' Hpf' Hreason' Hne'
                   |before' c' after' img' Hnb' Hcs' Hbefore' Himg'
                   |c' rest' reason' Hnb' Hno' Hcs' Hreason' Hne' Hstop'
                   |Hnb' Hno' Hn'];
    try reflexivity;
    try (exfalso; eauto; fail).
  - congruence.
  - assert (before ++ c :: after = before' ++ c' :: after')%list
      as E by congruence.
    destruct (first_outside_unique noImage
                (fun x => exists i, hasImage x i)
                before before' after after' c c')
      as (_ & -> & _); eauto.
    + intros y Hy [i Hi]. eapply hasImage_noImage; eauto.
    + now rewrite (hasImage_unique _ _ _ Himg Himg').
  - congruence.
Qed.

End WithTrim.

End InterpreterProps.

(** ** The session controller *)

Module ControllerProps.

Import App Spec JSFacts ObjFacts.

Section WithMessages.

Variable Thrown : Type.
Variable getFriendlyErrorMessage : Thrown -> string -> string.

Abbreviation handleStart := (App.handleStart getFriendlyErrorMessage).
Abbreviation handleAngleSelect :=
  (App.handleAngleSelect getFriendlyErrorMessage).
Abbreviation resumeStart := (App.resumeStart getFriendlyErrorMessage).
Abbreviation resumeAngleSelect :=
  (App.resumeAngleSelect getFriendlyErrorMessage).
Abbreviation apply := (App.apply getFriendlyErrorMessage).

(** Every call of [handleAngleSelect] is one of the four cases. *)
Lemma handleAngleSelect_case (newIndex : Z) (s : State) :
  selectViewCase getFriendlyErrorMessage newIndex s
    (handleAngleSelect newIndex s).
Proof.
  unfold App.handleAngleSelect.
  destruct (isLoading s) eqn:Hl; simpl.
  { apply Ignored; auto. }
  destruct (Z.eqb_spec newIndex (currentAngleIndex s)) as [E|NE]; simpl.
  { apply Ignored; auto. }
  destruct (selectedBox s) as [box|] eqn:Hbox; simpl.
  2:{ apply Ignored; auto. }
  assert (selectedBox s <> None) as Hsel by congruence.
  fold (viewKey newIndex).
  destruct (JS.truthy (Obj.get (generatedImages s) (viewKey newIndex)))
    eqn:Hhit.
  - destruct (truthy_Some _ Hhit) as (image & Himage & Hne).
    now apply CacheHit with image.
  - apply truthy_false in Hhit.
    rewrite index_head. unfold Obj.values.
    destruct (generatedImages s) as [|[key base] rest] eqn:Hcache;
      simpl.
    + apply NoBase; auto. now rewrite Hcache.
    + destruct (String.eqb_spec base "") as [->|Hbase]; simpl.
      * apply NoBase; auto; rewrite Hcache; eauto.
      * apply Regenerate with key rest; auto. now rewrite Hcache.
Qed.


(** What a request in flight has committed: the optimistic view and
    the loading flag, never the cache. *)
Lemma handleAngleSelect_awaiting (newIndex : Z) (s s1 : State)
  (request : Request) (resume : Settled Thrown -> State -> State) :
  handleAngleSelect newIndex s = Await s1 request resume ->
  exists key base rest,
    generatedImages s = (key, base) :: rest
    /\ base <> ""
    /\ absent (Obj.get (generatedImages s) (viewKey newIndex))
    /\ request
       = generateAngleVariation base
           (JS.index ANGLE_INSTRUCTIONS newIndex)
    /\ resume
       = resumeAngleSelect (currentAngleIndex s)
           (JS.index ANGLE_INSTRUCTIONS newIndex)
    /\ generatedImages s1 = generatedImages s
    /\ currentAngleIndex s1 = newIndex
    /\ selectedBox s1 = selectedBox s
    /\ logoFile s1 = logoFile s
    /\ isLoading s1 = true
    /\ error s1 = None.
Proof.
  intros H. pose proof (handleAngleSelect_case newIndex s) as Hcase.
  rewrite H in Hcase. inversion Hcase; subst.
  exists key, base, rest. repeat split; assumption.
Qed.

(** A call that returns without a request changes at most the
    selected view. *)
Lemma handleAngleSelect_done (newIndex : Z) (s s' : State) :
  handleAngleSelect newIndex s = Done s' ->
  s' = s \/ s' = setCurrentAngleIndex newIndex s.
Proof.
  intros H. pose proof (handleAngleSelect_case newIndex s) as Hcase.
  rewrite H in Hcase. inversion Hcase; subst; auto.
Qed.

Lemma failed_start_keeps_cache (box : BoxItem) (logo : File)
  (s : State) (err : Thrown) :
  generatedImages (settle (handleStart box logo s) (Rejected err))
  = generatedImages s.
Proof. reflexivity. Qed.

Lemma start_fulfilled_cache (box : BoxItem) (logo : File) (s : State)
  (newImageUrl : string) :
  generatedImages (settle (handleStart box logo s) (Fulfilled newImageUrl))
  = [(viewKey 0, newImageUrl)].
Proof. reflexivity. Qed.

(** The cache after a [SelectView]: as before, or with the target's
    entry set by a request that was issued and fulfilled. *)
Lemma select_view_cache (newIndex : Z) (outcome : Settled Thrown)
  (s : State) :
  generatedImages (settle (handleAngleSelect newIndex s) outcome)
  = generatedImages s
  \/ exists url s1 request resume,
      outcome = Fulfilled url
      /\ handleAngleSelect newIndex s = Await s1 request resume
      /\ generatedImages (settle (handleAngleSelect newIndex s) outcome)
         = Obj.set (generatedImages s) (viewKey newIndex) url.
Proof.
  pose proof (handleAngleSelect_case newIndex s) as Hcase.
  remember (handleAngleSelect newIndex s) as h eqn:Hh.
  destruct Hcase; try (left; reflexivity).
  destruct outcome as [url|err]; [right|left; reflexivity].
  exists url. eexists _, _, _. repeat split.
Qed.

(** C1, amended.  In every state in which a request is pending, a
    [SelectView] call is ignored: it returns at once, issues no
    request, and leaves the state as it is, so the cache, the
    selected view and the base/logo selection are what they were
    however the call is settled. *)
Theorem select_view_ignored_while_pending (newIndex : Z) (s : State)
  (outcome : Settled Thrown) :
  isLoading s = true ->
  handleAngleSelect newIndex s = Done s
  /\ sameSession s (settle (handleAngleSelect newIndex s) outcome).
Proof.
  intros Hp.
  assert (handleAngleSelect newIndex s = Done s) as E.
  { unfold App.handleAngleSelect. now rewrite Hp. }
  rewrite E. simpl. repeat split.
Qed.

(** C2.  When [SelectView(B)] misses the cache, issues its request
    and the request fails, the selected view is again the one of
    before the call, the cache is the one of before the call and
    still has no entry for B, nothing is pending, the error is
    recorded, and the base/logo selection is kept. *)
Theorem rollback_on_failed_regeneration (newIndex : Z) (s s1 : State)
  (request : Request) (resume : Settled Thrown -> State -> State)
  (err : Thrown) :
  Obj.get (generatedImages s) (viewKey newIndex) = None ->
  handleAngleSelect newIndex s = Await s1 request resume ->
  currentAngleIndex (resume (Rejected err) s1) = currentAngleIndex s
  /\ generatedImages (resume (Rejected err) s1) = generatedImages s
  /\ Obj.get (generatedImages (resume (Rejected err) s1))
       (viewKey newIndex) = None
  /\ isLoading (resume (Rejected err) s1) = false
  /\ error (resume (Rejected err) s1)
     = Some (getFriendlyErrorMessage err "No se pudo cambiar la vista")
  /\ selectedBox (resume (Rejected err) s1) = selectedBox s
  /\ logoFile (resume (Rejected err) s1) = logoFile s.
Proof.
  intros Hmiss H.
  destruct (handleAngleSelect_awaiting _ _ _ _ _ H)
    as (key & base & rest & _ & _ & _ & _ & -> & Hc & _ & Hb & Hf & _).
  simpl. rewrite Hc. repeat split; assumption.
Qed.

(** C3, amended.  A [Start] whose generation fails leaves no base/logo
    selection, records the error and is no longer pending, and leaves
    the cache exactly as it found it: [Start] does not reset the cache,
    so there are no cache entries afterwards when there were none
    before. *)
Theorem failed_start_unwinds (box : BoxItem) (logo : File)
  (s : State) (err : Thrown) :
  noSession (settle (handleStart box logo s) (Rejected err))
  /\ error (settle (handleStart box logo s) (Rejected err))
     = Some (getFriendlyErrorMessage err "No se pudo generar la maqueta")
  /\ isLoading (settle (handleStart box logo s) (Rejected err)) = false
  /\ generatedImages (settle (handleStart box logo s) (Rejected err))
     = generatedImages s
  /\ (generatedImages s = [] ->
      generatedImages (settle (handleStart box logo s) (Rejected err))
      = []).
Proof.
  rewrite failed_start_keeps_cache.
  repeat split. intros Hempty. exact Hempty.
Qed.

(** C5.  On a cache miss with a non-empty cache, whose oldest entry
    is [base]: any request the call issues is a regeneration from
    [base] for the target's instruction, made with the target
    already selected, pending set and the cache untouched; and the
    call does issue it whenever nothing is pending, the target is
    not the selected view, a box is selected and [base] is a
    non-empty string. *)
Theorem regeneration_uses_first_inserted (newIndex : Z) (s : State)
  (key base : string) (rest : Obj.t) :
  generatedImages s = (key, base) :: rest ->
  Obj.get (generatedImages s) (viewKey newIndex) = None ->
  (forall s1 request resume,
      handleAngleSelect newIndex s = Await s1 request resume ->
      request
      = generateAngleVariation base
          (JS.index ANGLE_INSTRUCTIONS newIndex)
      /\ currentAngleIndex s1 = newIndex
      /\ isLoading s1 = true
      /\ generatedImages s1 = generatedImages s)
  /\ (isLoading s = false ->
      newIndex <> currentAngleIndex s ->
      selectedBox s <> None ->
      base <> "" ->
      exists s1 resume,
        handleAngleSelect newIndex s
        = Await s1
            (generateAngleVariation base
               (JS.index ANGLE_INSTRUCTIONS newIndex))
            resume
        /\ currentAngleIndex s1 = newIndex).
Proof.
  intros Hcache Hmiss. split.
  - intros s1 request resume H.
    destruct (handleAngleSelect_awaiting _ _ _ _ _ H)
      as (key' & base' & rest' & Hc & _ & _ & -> & _ & Hc1 & Hi & _ & _
          & Hl & _).
    rewrite Hcache in Hc. injection Hc as _ <- _.
    repeat split; assumption.
  - intros Hl Hne Hbox Hbase.
    pose proof (handleAngleSelect_case newIndex s) as Hcase.
    inversion Hcase as [Hig|image _ _ _ Hget _|_ _ _ _ Hnb
                       |key' base' rest' _ _ _ _ Hc _ Heq].
    + destruct Hig as [Hig|[Hig|Hig]]; congruence.
    + congruence.
    + destruct Hnb as [Hnb|(k & r & Hnb)]; rewrite Hcache in Hnb;
        congruence.
    + rewrite Hcache in Hc. injection Hc as <- <- <-.
      eexists _, _. split; reflexivity.
Qed.

(** The cache-hit branch. *)
Lemma handleAngleSelect_hit (newIndex : Z) (s : State) (image : string) :
  Obj.get (generatedImages s) (viewKey newIndex) = Some image ->
  image <> "" ->
  isLoading s = false ->
  newIndex <> currentAngleIndex s ->
  selectedBox s <> None ->
  handleAngleSelect newIndex s = Done (setCurrentAngleIndex newIndex s).
Proof.
  intros Hget Himage Hl Hne Hbox.
  pose proof (handleAngleSelect_case newIndex s) as Hcase.
  inversion Hcase as [Hig| |_ _ _ Hab _|key base rest _ _ _ Hab _ _].
  - destruct Hig as [Hig|[Hig|Hig]]; congruence.
  - reflexivity.
  - destruct Hab; congruence.
  - destruct Hab; congruence.
Qed.


(** C8.  Whatever the presentation layer calls, a cache entry comes to
    hold a different image only through a regeneration that succeeded
    and targeted exactly its key: a [SelectView] of that key whose
    request was issued and fulfilled, or a fulfilled [Start], which
    replaces the whole cache by a fresh first-view entry. *)
Theorem no_silent_overwrite (op : Op Thrown) (s : State) (key : string) :
  overwrites getFriendlyErrorMessage op s key ->
  regenerates getFriendlyErrorMessage op s key.
Proof.
  intros (old & new & Hold & Hnew & Hdiff).
  destruct op as [box logo [url|err]|newIndex outcome|];
    cbn [App.apply regenerates] in *.
  - rewrite start_fulfilled_cache in Hnew.
    now apply get_singleton in Hnew.
  - rewrite failed_start_keeps_cache in Hnew. congruence.
  - destruct (select_view_cache newIndex outcome s)
      as [Hsame|(url & s1 & request & resume & -> & Hawait & Hset)].
    + rewrite Hsame in Hnew. congruence.
    + rewrite Hset in Hnew.
      destruct (String.eqb_spec key (viewKey newIndex)) as [->|Hother].
      * split; [reflexivity|]. eauto.
      * rewrite get_set_other in Hnew by assumption. congruence.
  - discriminate.
Qed.

(** An entry is dropped or changed only by a fulfilled request for its
    own key, by a fulfilled [Start], which leaves the single first-view
    entry, or by [Reset], which leaves none. *)
Lemma entry_disturbed_only_by_design (op : Op Thrown) (s : State)
  (key : string) :
  disturbs getFriendlyErrorMessage op s key ->
  match op with
  | SelectView newIndex (Fulfilled _) =>
      regenerates getFriendlyErrorMessage op s key
  | Start _ _ (Fulfilled newImageUrl) =>
      generatedImages (apply op s) = [(viewKey 0, newImageUrl)]
  | Reset => generatedImages (apply op s) = []
  | _ => False
  end.
Proof.
  intros (old & Hold & Hnew).
  destruct op as [box logo [url|err]|newIndex outcome|];
    cbn [App.apply regenerates] in *; try reflexivity.
  - now rewrite failed_start_keeps_cache in Hnew.
  - destruct (select_view_cache newIndex outcome s)
      as [Hsame|(url & s1 & request & resume & -> & Hawait & Hset)].
    + rewrite Hsame in Hnew. destruct outcome; contradiction.
    + rewrite Hset in Hnew.
      destruct (String.eqb_spec key (viewKey newIndex)) as [->|Hother].
      * split; [reflexivity|]. eauto.
      * rewrite get_set_other in Hnew by assumption. contradiction.
Qed.

(** An entry that holds an image is never regenerated: the only
    overwriting [SelectView] is one that found the empty string. *)
Lemma cached_image_survives_select (newIndex : Z)
  (outcome : Settled Thrown) (s : State) (key image : string) :
  Obj.get (generatedImages s) key = Some image ->
  image <> "" ->
  Obj.get (generatedImages (apply (SelectView newIndex outcome) s)) key
  = Some image.
Proof.
  intros Hget Himage. cbn [App.apply].
  destruct (select_view_cache newIndex outcome s)
    as [Hsame|(url & s1 & request & resume & -> & Hawait & Hset)].
  - now rewrite Hsame.
  - rewrite Hset.
    destruct (handleAngleSelect_awaiting _ _ _ _ _ Hawait)
      as (k & base & rest & _ & _ & Hab & _).
    rewrite get_set_other; [assumption|].
    intros ->. destruct Hab; congruence.
Qed.

(** C9.  When the target is not cached and either no box is selected
    or the cache is empty, [SelectView] returns without a request and
    leaves every state field as it was: nothing is raised or
    recorded. *)
Theorem select_view_noop_without_base (newIndex : Z) (s : State) :
  Obj.get (generatedImages s) (viewKey newIndex) = None ->
  selectedBox s = None \/ generatedImages s = [] ->
  handleAngleSelect newIndex s = Done s.
Proof.
  intros Hmiss Hnone.
  pose proof (handleAngleSelect_case newIndex s) as Hcase.
  inversion Hcase as [ |image _ _ _ Hget _|
                     |key base rest _ _ Hbox _ Hcache _].
  - reflexivity.
  - congruence.
  - reflexivity.
  - destruct Hnone; congruence.
Qed.


(** Sessions only ever cache non-empty images, so in a session a cache
    entry is found exactly when it exists. *)
Lemma apply_keeps_images_nonempty (op : Op Thrown) (s : State) :
  deliversImage op -> imagesNonEmpty s -> imagesNonEmpty (apply op s).
Proof.
  unfold imagesNonEmpty. intros Hop Hs.
  destruct op as [box logo [url|err]|newIndex outcome|];
    cbn [App.apply deliversImage] in *.
  - rewrite start_fulfilled_cache. constructor; [exact Hop|constructor].
  - now rewrite failed_start_keeps_cache.
  - destruct (select_view_cache newIndex outcome s)
      as [Hsame|(url & s1 & request & resume & -> & Hawait & Hset)].
    + now rewrite Hsame.
    + rewrite Hset. apply set_Forall; [assumption|]. intros k'. exact Hop.
  - constructor.
Qed.

Lemma run_keeps_images_nonempty (ops : list (Op Thrown)) (s : State) :
  Forall (@deliversImage Thrown) ops ->
  imagesNonEmpty s ->
  imagesNonEmpty (App.run getFriendlyErrorMessage ops s).
Proof.
  intros Hops. revert s.
  induction Hops as [|op ops Hop Hops IH]; intros s Hs; simpl.
  - exact Hs.
  - apply IH. now apply apply_keeps_images_nonempty.
Qed.

Lemma session_images_nonempty (ops : list (Op Thrown)) :
  Forall (@deliversImage Thrown) ops ->
  imagesNonEmpty (App.run getFriendlyErrorMessage ops initialState).
Proof.
  intros Hops. apply run_keeps_images_nonempty; [assumption|constructor].
Qed.

(** In such a session every cached view other than the selected one is
    switched to without a request as soon as nothing is pending and a box
    is selected. *)
Lemma session_cache_hit (newIndex : Z) (s : State) (image : string) :
  imagesNonEmpty s ->
  Obj.get (generatedImages s) (viewKey newIndex) = Some image ->
  isLoading s = false ->
  newIndex <> currentAngleIndex s ->
  selectedBox s <> None ->
  handleAngleSelect newIndex s = Done (setCurrentAngleIndex newIndex s).
Proof.
  intros Hs Hget Hl Hne Hbox.
  destruct (get_Forall _ _ _ _ Hs Hget) as (k' & Himage).
  now apply handleAngleSelect_hit with image.
Qed.

End WithMessages.

(** C7.  The displayed image is the cache entry of the selected view
    if there is one, else the oldest cache entry, else the url of the
    selected box; it is defined whenever the cache is not empty or a
    box is selected. *)
Theorem displayImageUrl_resolution (s : State) :
  displayImageUrl s = displayedImage s
  /\ (generatedImages s <> [] \/ selectedBox s <> None ->
      exists image, displayImageUrl s = Some image).
Proof.
  assert (displayImageUrl s = displayedImage s) as E.
  { unfold displayImageUrl, displayedImage, selectedView.
    destruct (Obj.get _ _); simpl; [reflexivity|].
    rewrite index_head. unfold Obj.values.
    destruct (generatedImages s) as [|[key first] rest]; simpl;
      [|reflexivity].
    destruct (selectedBox s); reflexivity. }
  split; [exact E|].
  rewrite E. unfold displayedImage.
  intros Hsome.
  destruct (Obj.get _ _) as [image|]; [eauto|].
  destruct (generatedImages s) as [|[key first] rest]; [|eauto].
  destruct (selectedBox s) as [box|]; [eauto|].
  destruct Hsome; congruence.
Qed.

End ControllerProps.

(** ** The properties on concrete sessions and responses *)

Module Scenarios.

Import Gemini App Spec Sample.

(** An image in a later candidate wins over the first candidate's
    abnormal finish reason; a block reason wins over an image. *)
Example image_beats_finish_reason :
  handleApiResponse trim imageInSecondCandidate
  = Returns "data:image/png;base64,AAAA".
Proof. reflexivity. Qed.

Example block_beats_image :
  handleApiResponse trim blockedWithImage
  = Throws (blockedMessage "SAFETY" None).
Proof. reflexivity. Qed.

Example truncated_is_abnormal :
  handleApiResponse trim truncated = Throws (abnormalMessage "SAFETY").
Proof. reflexivity. Qed.

Example text_only_is_no_image :
  handleApiResponse trim textOnly
  = Throws (noImageMessage (Some "I cannot.")).
Proof. reflexivity. Qed.

(** The scenario of section 8. *)
Example section8_scenario :
  generatedImages twoViews
  = [("Vista Frontal", I1); ("Vista en Ángulo", I2)]
  /\ currentAngleIndex twoViews = 1%Z
  /\ generatedImages staleError = generatedImages twoViews
  /\ currentAngleIndex staleError = 1%Z.
Proof. vm_compute. repeat split. Qed.

(** With the second view selected, the third is regenerated from the
    first image, not from the displayed one. *)
Example regeneration_ignores_selected_view :
  displayImageUrl twoViews = Some I2
  /\ exists s1 resume,
      handleAngleSelect friendly 2 twoViews
      = Await s1 (generateAngleVariation I1 (Some "Vista Superior")) resume.
Proof. split; [reflexivity|]. eexists _, _. reflexivity. Qed.

(** A session without a box can hold cache entries. *)
Example reset_during_start_keeps_late_image :
  noSession resetDuringStart
  /\ generatedImages resetDuringStart = [("Vista Frontal", I1)].
Proof. repeat split. Qed.

(** C1 as stated fails: a [Start] called while a request is pending is
    not ignored; it replaces the base selection and, once fulfilled, the
    cache. *)
Lemma start_while_pending_counterexample :
  isLoading pendingStart = true
  /\ ~ sameSession pendingStart
        (settle (handleStart friendly boxB logoX pendingStart)
           (Fulfilled I3)).
Proof.
  split; [reflexivity|].
  intros (Hcache & _). discriminate Hcache.
Qed.

Lemma select_view_ignored_while_pending_witness :
  isLoading pendingStart = true
  /\ handleAngleSelect friendly 1 pendingStart = Done pendingStart
  /\ sameSession pendingStart
       (settle (handleAngleSelect friendly 1 pendingStart) (Fulfilled I2)).
Proof.
  split; [reflexivity|].
  exact (ControllerProps.select_view_ignored_while_pending
           string friendly 1 pendingStart (Fulfilled I2) eq_refl).
Defined.

Lemma rollback_on_failed_regeneration_witness :
  Obj.get (generatedImages twoViews) (viewKey 2) = None
  /\ handleAngleSelect friendly 2 twoViews
     = Await awaitingTop
         (generateAngleVariation I1 (Some "Vista Superior"))
         (resumeAngleSelect friendly 1 (Some "Vista Superior"))
  /\ currentAngleIndex
       (resumeAngleSelect friendly 1 (Some "Vista Superior")
          (Rejected "SAFETY") awaitingTop)
     = currentAngleIndex twoViews
  /\ generatedImages
       (resumeAngleSelect friendly 1 (Some "Vista Superior")
          (Rejected "SAFETY") awaitingTop)
     = generatedImages twoViews
  /\ Obj.get
       (generatedImages
          (resumeAngleSelect friendly 1 (Some "Vista Superior")
             (Rejected "SAFETY") awaitingTop))
       (viewKey 2) = None
  /\ isLoading
       (resumeAngleSelect friendly 1 (Some "Vista Superior")
          (Rejected "SAFETY") awaitingTop) = false
  /\ error
       (resumeAngleSelect friendly 1 (Some "Vista Superior")
          (Rejected "SAFETY") awaitingTop)
     = Some (friendly "SAFETY" "No se pudo cambiar la vista")
  /\ selectedBox
       (resumeAngleSelect friendly 1 (Some "Vista Superior")
          (Rejected "SAFETY") awaitingTop)
     = selectedBox twoViews
  /\ logoFile
       (resumeAngleSelect friendly 1 (Some "Vista Superior")
          (Rejected "SAFETY") awaitingTop)
     = logoFile twoViews.
Proof.
  split; [reflexivity|]. split; [reflexivity|].
  exact (ControllerProps.rollback_on_failed_regeneration
           string friendly 2 twoViews awaitingTop
           (generateAngleVariation I1 (Some "Vista Superior"))
           (resumeAngleSelect friendly 1 (Some "Vista Superior"))
           "SAFETY" eq_refl eq_refl).
Defined.

(** C3 as stated fails: [Start] does not empty the cache, so when it
    fails on a session that has entries they are still there. *)
Lemma failed_start_counterexample :
  generatedImages twoViews <> []
  /\ generatedImages
       (settle (handleStart friendly boxA logoX twoViews) (Rejected "503"))
     <> [].
Proof. split; discriminate. Qed.

Lemma failed_start_unwinds_witness :
  generatedImages initialState = []
  /\ noSession
       (settle (handleStart friendly boxA logoX initialState)
          (Rejected "503"))
  /\ error
       (settle (handleStart friendly boxA logoX initialState)
          (Rejected "503"))
     = Some (friendly "503" "No se pudo generar la maqueta")
  /\ isLoading
       (settle (handleStart friendly boxA logoX initialState)
          (Rejected "503")) = false
  /\ generatedImages
       (settle (handleStart friendly boxA logoX initialState)
          (Rejected "503"))
     = generatedImages initialState
  /\ generatedImages
       (settle (handleStart friendly boxA logoX initialState)
          (Rejected "503")) = [].
Proof.
  pose proof (ControllerProps.failed_start_unwinds
                string friendly boxA logoX initialState "503")
    as (Hsession & Herror & Hpending & Hcache & Hempty).
  exact (conj eq_refl
           (conj Hsession
              (conj Herror
                 (conj Hpending (conj Hcache (Hempty eq_refl)))))).
Defined.

Lemma regeneration_uses_first_inserted_witness :
  generatedImages twoViews
  = ("Vista Frontal", I1) :: [("Vista en Ángulo", I2)]
  /\ Obj.get (generatedImages twoViews) (viewKey 2) = None
  /\ (forall s1 request resume,
         handleAngleSelect friendly 2 twoViews = Await s1 request resume ->
         request
         = generateAngleVariation I1 (JS.index ANGLE_INSTRUCTIONS 2)
         /\ currentAngleIndex s1 = 2%Z
         /\ isLoading s1 = true
         /\ generatedImages s1 = generatedImages twoViews)
  /\ (isLoading twoViews = false ->
      2%Z <> currentAngleIndex twoViews ->
      selectedBox twoViews <> None ->
      I1 <> "" ->
      exists s1 resume,
        handleAngleSelect friendly 2 twoViews
        = Await s1
            (generateAngleVariation I1 (JS.index ANGLE_INSTRUCTIONS 2))
            resume
        /\ currentAngleIndex s1 = 2%Z).
Proof.
  split; [reflexivity|]. split; [reflexivity|].
  exact (ControllerProps.regeneration_uses_first_inserted
           string friendly 2 twoViews "Vista Frontal" I1
           [("Vista en Ángulo", I2)] eq_refl eq_refl).
Defined.



Lemma displayImageUrl_resolution_witness :
  (generatedImages awaitingTop <> [] \/ selectedBox awaitingTop <> None)
  /\ displayImageUrl awaitingTop = displayedImage awaitingTop
  /\ exists image, displayImageUrl awaitingTop = Some image.
Proof.
  assert (generatedImages awaitingTop <> []
          \/ selectedBox awaitingTop <> None) as H
    by (left; discriminate).
  split; [exact H|].
  split.
  - exact (proj1 (ControllerProps.displayImageUrl_resolution awaitingTop)).
  - exact (proj2 (ControllerProps.displayImageUrl_resolution awaitingTop) H).
Defined.

Lemma no_silent_overwrite_witness :
  overwrites friendly (Start boxA logoX (Fulfilled I3)) afterStart
    "Vista Frontal"
  /\ regenerates friendly (Start boxA logoX (Fulfilled I3)) afterStart
       "Vista Frontal".
Proof.
  assert (overwrites friendly (Start boxA logoX (Fulfilled I3)) afterStart
            "Vista Frontal") as H.
  { exists I1, I3. repeat split. discriminate. }
  split; [exact H|].
  exact (ControllerProps.no_silent_overwrite
           string friendly (Start boxA logoX (Fulfilled I3)) afterStart
           "Vista Frontal" H).
Defined.

Lemma select_view_noop_without_base_witness :
  Obj.get (generatedImages twoViewsNoBox) (viewKey 2) = None
  /\ (selectedBox twoViewsNoBox = None
      \/ generatedImages twoViewsNoBox = [])
  /\ handleAngleSelect friendly 2 twoViewsNoBox = Done twoViewsNoBox.
Proof.
  split; [reflexivity|]. split; [left; reflexivity|].
  exact (ControllerProps.select_view_noop_without_base
           string friendly 2 twoViewsNoBox eq_refl (or_introl eq_refl)).
Defined.


End Scenarios.

(** ** Parsing data URLs *)

Module DataUrlFacts.

Import DataUrl.

Lemma append_assoc (s t u : string) : (s ++ t) ++ u = s ++ (t ++ u).
Proof. induction s as [|c s IH]; simpl; [reflexivity|now rewrite IH]. Qed.

Lemma append_empty (s : string) : s ++ "" = s.
Proof. induction s as [|c s IH]; simpl; [reflexivity|now rewrite IH]. Qed.

Lemma prefix_append (s t : string) : prefix s (s ++ t) = true.
Proof.
  induction s as [|c s IH]; simpl.
  - now destruct t.
  - destruct (ascii_dec c c); [exact IH|contradiction].
Qed.

Lemma occurs_app (c : ascii) (s t : string) :
  occurs c (s ++ t) = occurs c s || occurs c t.
Proof.
  induction s as [|c' s IH]; simpl; [reflexivity|].
  now rewrite IH, orb_assoc.
Qed.

Lemma split_whole (separator : ascii) (s : string) :
  occurs separator s = false -> split separator s = [s].
Proof.
  induction s as [|c s IH]; simpl; [reflexivity|].
  intros H. apply orb_false_iff in H. destruct H as [Hc Hs].
  rewrite Hc, (IH Hs). reflexivity.
Qed.

Lemma split_at_first (separator : ascii) (s t : string) :
  occurs separator s = false ->
  split separator (s ++ String separator t) = s :: split separator t.
Proof.
  induction s as [|c s IH]; simpl.
  - intros _. now rewrite Ascii.eqb_refl.
  - intros H. apply orb_false_iff in H. destruct H as [Hc Hs].
    rewrite Hc, (IH Hs). reflexivity.
Qed.

Lemma split_nonempty (separator : ascii) (s : string) :
  split separator s <> [].
Proof.
  destruct s as [|c s]; simpl; [discriminate|].
  destruct (c =? separator)%char; [discriminate|].
  destruct (split separator s); discriminate.
Qed.

Lemma split_length (separator : ascii) (s : string) :
  (length (split separator s) <? 2)%nat = negb (occurs separator s).
Proof.
  induction s as [|c s IH]; simpl; [reflexivity|].
  pose proof (split_nonempty separator s) as Hne.
  destruct (split separator s) as [|piece pieces]; [contradiction|].
  destruct (c =? separator)%char; simpl in *; [reflexivity|exact IH].
Qed.

Lemma split_pieces (separator : ascii) (s : string) :
  Forall (fun piece => occurs separator piece = false) (split separator s).
Proof.
  induction s as [|c s IH]; simpl.
  - repeat constructor.
  - destruct (c =? separator)%char eqn:Hc.
    + constructor; [reflexivity|exact IH].
    + destruct (split separator s) as [|piece pieces].
      * repeat constructor. simpl. now rewrite Hc.
      * inversion IH; subst. constructor; [|assumption].
        simpl. now rewrite Hc.
Qed.

Lemma nth_pieces (separator : ascii) (s : string) (n : nat) :
  occurs separator (nth n (split separator s) EmptyString) = false.
Proof.
  pose proof (split_pieces separator s) as H.
  revert n. induction H as [|piece pieces Hp _ IH]; intros [|n]; simpl;
    auto.
Qed.

(** Whether a line terminator starts a string is settled before a
    semicolon that follows it. *)
Lemma lineTerminatorAt_before_semicolon (c : ascii) (s t : string) :
  lineTerminatorAt (String c (s ++ String ";" t))
  = lineTerminatorAt (String c s).
Proof.
  unfold lineTerminatorAt.
  destruct s as [|c2 [|c3 s]]; simpl.
  - destruct t; simpl; now rewrite ?andb_false_r.
  - now rewrite ?andb_false_r.
  - reflexivity.
Qed.

Lemma lazyUpToSemicolon_stops (capture rest : string) :
  occurs ";" capture = false ->
  oneLine capture = true ->
  lazyUpToSemicolon (capture ++ String ";" rest) = Some capture.
Proof.
  induction capture as [|c capture IH]; [reflexivity|].
  intros Hsemi Hline.
  cbn [occurs] in Hsemi. apply orb_false_iff in Hsemi.
  destruct Hsemi as [Hc Hsemi].
  cbn [oneLine] in Hline. apply andb_true_iff in Hline.
  destruct Hline as [Hlt Hline]. apply negb_true_iff in Hlt.
  cbn [append lazyUpToSemicolon].
  rewrite Hc, lineTerminatorAt_before_semicolon, Hlt, (IH Hsemi Hline).
  reflexivity.
Qed.

Lemma lazyUpToSemicolon_capture (s capture : string) :
  lazyUpToSemicolon s = Some capture ->
  (exists rest, s = capture ++ String ";" rest)
  /\ occurs ";" capture = false
  /\ oneLine capture = true.
Proof.
  revert capture. induction s as [|c s IH]; intros capture;
    cbn [lazyUpToSemicolon]; [discriminate|].
  destruct (Ascii.eqb_spec c ";") as [->|Hc].
  - intros [= <-]. repeat split. now exists s.
  - destruct (lineTerminatorAt (String c s)) eqn:Hlt; [discriminate|].
    destruct (lazyUpToSemicolon s) as [inner|]; [|discriminate].
    intros [= <-].
    destruct (IH inner eq_refl) as ((rest & ->) & Hsemi & Hline).
    repeat split.
    + now exists rest.
    + cbn [occurs]. rewrite Hsemi.
      destruct (Ascii.eqb_spec c ";"); [contradiction|reflexivity].
    + cbn [oneLine]. rewrite Hline.
      rewrite lineTerminatorAt_before_semicolon in Hlt. now rewrite Hlt.
Qed.

Lemma matchMime_leftmost (before capture rest : string) :
  occurs ":" before = false ->
  occurs ";" capture = false ->
  oneLine capture = true ->
  matchMime (before ++ String ":" (capture ++ String ";" rest))
  = Some capture.
Proof.
  intros Hbefore Hsemi Hline.
  induction before as [|c before IH]; cbn [append matchMime].
  - rewrite Ascii.eqb_refl.
    now rewrite lazyUpToSemicolon_stops.
  - cbn [occurs] in Hbefore. apply orb_false_iff in Hbefore.
    destruct Hbefore as [Hc Hbefore]. rewrite Hc. now apply IH.
Qed.

Lemma matchMime_capture (s capture : string) :
  matchMime s = Some capture ->
  (exists before rest,
      s = before ++ String ":" (capture ++ String ";" rest))
  /\ occurs ";" capture = false
  /\ oneLine capture = true.
Proof.
  induction s as [|c s IH]; cbn [matchMime]; [discriminate|].
  assert (matchMime s = Some capture ->
          (exists before rest,
              String c s = before ++ String ":" (capture ++ String ";" rest))
          /\ occurs ";" capture = false /\ oneLine capture = true)
    as Hlater.
  { intros H. destruct (IH H) as ((before & rest & ->) & Hrest).
    split; [|exact Hrest]. now exists (String c before), rest. }
  destruct (Ascii.eqb_spec c ":") as [->|Hc]; [|exact Hlater].
  destruct (lazyUpToSemicolon s) as [inner|] eqn:Hlazy; [|exact Hlater].
  intros [= <-].
  destruct (lazyUpToSemicolon_capture _ _ Hlazy) as ((rest & ->) & Hrest).
  split; [|exact Hrest]. now exists EmptyString, rest.
Qed.

(** The header before the first comma gives the MIME type, the piece
    between the first and the second comma the data. *)
Lemma parse_header (before mime params payload rest : string) :
  occurs ":" before = false ->
  occurs "," before = false ->
  mime <> "" ->
  occurs ";" mime = false ->
  occurs "," mime = false ->
  oneLine mime = true ->
  occurs "," params = false ->
  occurs "," payload = false ->
  rest = "" \/ (exists later, rest = String "," later) ->
  dataUrlToParts
    (before ++ String ":" (mime ++ String ";" (params ++ String ","
       (payload ++ rest))))
  = Ok {| mimeType := mime; data := payload |}.
Proof.
  intros Hb1 Hb2 Hne Hm1 Hm2 Hm3 Hp Hd Hrest.
  unfold dataUrlToParts.
  assert (split ","
            (before ++ String ":" (mime ++ String ";" (params ++ String ","
               (payload ++ rest))))
          = (before ++ String ":" (mime ++ String ";" params))
              :: split "," (payload ++ rest)) as Hsplit.
  { replace (before ++ String ":" (mime ++ String ";" (params ++ String ","
               (payload ++ rest))))
      with ((before ++ String ":" (mime ++ String ";" params))
              ++ String "," (payload ++ rest)).
    - apply split_at_first.
      rewrite occurs_app, Hb2. cbn [occurs orb].
      rewrite occurs_app, Hm2. cbn [occurs orb]. rewrite Hp. reflexivity.
    - rewrite !append_assoc. cbn [append].
      rewrite !append_assoc. reflexivity. }
  rewrite Hsplit.
  assert (exists later, split "," (payload ++ rest) = payload :: later)
    as (later & Hpieces).
  { destruct Hrest as [->|(later & ->)].
    - exists []. rewrite append_empty. now apply split_whole.
    - eexists. now apply split_at_first. }
  rewrite Hpieces. cbn [length Nat.ltb Nat.leb nth].
  rewrite matchMime_leftmost by assumption.
  destruct (String.eqb_spec mime ""); [contradiction|reflexivity].
Qed.

End DataUrlFacts.

Module DataUrlProps.

Import DataUrl DataUrlFacts.

(** X1.  [dataUrlToParts] throws "Invalid data URL" exactly on the
    strings that hold no comma. *)
Theorem invalid_data_url_iff_no_comma (dataUrl : string) :
  dataUrlToParts dataUrl = Error "Invalid data URL"
  <-> occurs "," dataUrl = false.
Proof.
  unfold dataUrlToParts. rewrite split_length.
  destruct (occurs "," dataUrl); simpl.
  - split; [|discriminate].
    destruct (matchMime _) as [mime|]; [|discriminate].
    destruct (mime =? ""); discriminate.
  - split; reflexivity.
Qed.

(** X2.  Of a string made of a header, a comma, data and, if anything
    more, a second comma and the rest, where the header is text with no
    colon and no comma, a colon, a non-empty MIME type with no
    semicolon, comma or line terminator, a semicolon, and parameters
    with no comma, and where the data hold no comma, [dataUrlToParts]
    returns that MIME type and those data: the parameters after the
    MIME type and everything from the second comma on are dropped. *)
Theorem dataUrlToParts_reads_header
  (before mime params payload rest : string) :
  occurs ":" before = false ->
  occurs "," before = false ->
  mime <> "" ->
  occurs ";" mime = false ->
  occurs "," mime = false ->
  oneLine mime = true ->
  occurs "," params = false ->
  occurs "," payload = false ->
  rest = "" \/ (exists later, rest = "," ++ later) ->
  dataUrlToParts
    (before ++ ":" ++ mime ++ ";" ++ params ++ "," ++ payload ++ rest)
  = Ok {| mimeType := mime; data := payload |}.
Proof. exact (parse_header before mime params payload rest). Qed.

(** X3.  Whatever [dataUrlToParts] returns has a MIME type that is not
    empty, holds no semicolon, no comma and no line terminator, and data
    that hold no comma. *)
Theorem dataUrlToParts_result_shape (dataUrl : string) (parts : InlineData) :
  dataUrlToParts dataUrl = Ok parts ->
  mimeType parts <> ""
  /\ occurs ";" (mimeType parts) = false
  /\ occurs "," (mimeType parts) = false
  /\ oneLine (mimeType parts) = true
  /\ occurs "," (data parts) = false.
Proof.
  unfold dataUrlToParts.
  destruct (length (split "," dataUrl) <? 2)%nat; [discriminate|].
  destruct (matchMime _) as [mime|] eqn:Hmatch; [|discriminate].
  destruct (String.eqb_spec mime "") as [|Hne]; [discriminate|].
  intros [= <-]. cbn [mimeType data].
  destruct (matchMime_capture _ _ Hmatch)
    as ((before & rest & Hhead) & Hsemi & Hline).
  pose proof (nth_pieces "," dataUrl 0) as Hcomma.
  rewrite Hhead, occurs_app in Hcomma. cbn [occurs] in Hcomma.
  rewrite occurs_app in Hcomma.
  repeat split; try assumption.
  - destruct (occurs "," mime); [|reflexivity].
    now rewrite !orb_true_r in Hcomma.
  - apply nth_pieces.
Qed.

(** X4.  An image the interpreter returned parses back into its parts:
    for a blob whose MIME type is not empty and holds no semicolon,
    comma or line terminator and whose data hold no comma,
    [dataUrlToParts] of its data URL gives that MIME type and those
    data. *)
Theorem interpreter_image_round_trip (b : Gemini.Blob)
  (mime payload : string) :
  Gemini.mimeType b = Some mime ->
  Gemini.data b = Some payload ->
  mime <> "" ->
  occurs ";" mime = false ->
  occurs "," mime = false ->
  oneLine mime = true ->
  occurs "," payload = false ->
  dataUrlToParts (Gemini.dataUrl b)
  = Ok {| mimeType := mime; data := payload |}.
Proof.
  intros Hmime Hdata Hne Hsemi Hcomma Hline Hpayload.
  unfold Gemini.dataUrl. rewrite Hmime, Hdata. cbn [JS.template].
  rewrite <- (append_empty payload) at 1.
  apply (parse_header "data" mime "base64" payload "");
    try assumption; try reflexivity.
  now left.
Qed.

End DataUrlProps.

(** ** The generation client *)

Module ClientFacts.

Import Client.

Section WithHost.

Variable Thrown : Type.
Variable newError : string -> Thrown.
Variable WebBlob : Type.
Variable trim : string -> string.

Lemma exec_bind {A B : Type} (host : Host Thrown WebBlob)
  (m : Async Thrown WebBlob A) (f : A -> Async Thrown WebBlob B) :
  exec host (bind m f)
  = match exec host m with
    | (calls, Fulfils a) =>
        let (more, outcome) := exec host (f a) in
        ((calls ++ more)%list, outcome)
    | (calls, Rejects e) => (calls, Rejects e)
    | (calls, NeverSettles) => (calls, NeverSettles)
    end.
Proof.
  induction m as [a|e| |url k IH|source k IH|params k IH];
    cbn [bind exec].
  - now destruct (exec host (f a)).
  - reflexivity.
  - reflexivity.
  - rewrite IH. destruct (exec host (k _)) as [calls [a|e|]];
      [destruct (exec host (f a))|..]; reflexivity.
  - rewrite IH. destruct (exec host (k _)) as [calls [a|e|]];
      [destruct (exec host (f a))|..]; reflexivity.
  - rewrite IH. destruct (exec host (k _)) as [calls [a|e|]];
      [destruct (exec host (f a))|..]; reflexivity.
Qed.

(** The last step makes no call, and fulfils only with a data URL the
    interpreter built. *)
Lemma exec_interpret (host : Host Thrown WebBlob)
  (r : Thrown + Gemini.GenerateContentResponse) :
  fst (exec host (interpret Thrown newError WebBlob trim r)) = []
  /\ forall url,
      snd (exec host (interpret Thrown newError WebBlob trim r))
      = Fulfils url ->
      exists b, url = Gemini.dataUrl b.
Proof.
  destruct r as [e|response]; cbn [interpret exec fst snd].
  - split; [reflexivity|discriminate].
  - destruct (Gemini.handleApiResponse trim response) as [url|message]
      eqn:Hres; cbn [exec fst snd]; (split; [reflexivity|]);
      [|discriminate].
    intros u [= <-].
    unfold Gemini.handleApiResponse in Hres.
    assert (Gemini.afterBlockCheck trim response = Gemini.Returns url)
      as Hafter.
    { destruct (Gemini.promptFeedback response) as [pf|]; [|exact Hres].
      destruct (JS.truthy (Gemini.blockReason pf)); [discriminate|].
      exact Hres. }
    unfold Gemini.afterBlockCheck in Hafter.
    destruct (Gemini.firstImage _) as [found|] eqn:Himage.
    + injection Hafter as <-.
      destruct (GeminiFacts.firstImage_found _ _ Himage)
        as (_ & _ & _ & b & _ & _ & _ & ->).
      now exists b.
    + destruct (_ && _); discriminate.
Qed.

End WithHost.

End ClientFacts.

Module ClientProps.

Import Client ClientFacts.

Section WithHost.

Variable Thrown : Type.
Variable newError : string -> Thrown.
Variable WebBlob : Type.
Variable trim : string -> string.

Abbreviation generateAngleVariation :=
  (Client.generateAngleVariation Thrown newError WebBlob trim).
Abbreviation generateLogoOnBoxImage :=
  (Client.generateLogoOnBoxImage Thrown newError WebBlob trim).
Abbreviation interpret := (Client.interpret Thrown newError WebBlob trim).
Abbreviation urlToPart := (Client.urlToPart Thrown newError WebBlob).
Abbreviation fileToPart := (Client.fileToPart Thrown newError WebBlob).
Abbreviation perform := (Client.perform Thrown newError WebBlob trim).

Lemma exec_generate (host : Host Thrown WebBlob)
  (params : GenerateContentParameters) :
  exec host (Generate params interpret)
  = ([GenerateCall params],
     snd (exec host (interpret (generated host params)))).
Proof.
  cbn [exec].
  pose proof (exec_interpret Thrown newError WebBlob trim host
                (generated host params)) as (Hcalls & _).
  destruct (exec host (interpret (generated host params))) as [calls o].
  cbn [fst snd] in *. now subst.
Qed.

(** The last step calls nothing and settles as the interpreter
    completes. *)
Lemma exec_interpret_value (host : Host Thrown WebBlob)
  (r : Thrown + Gemini.GenerateContentResponse) :
  exec host (interpret r)
  = ([],
     match r with
     | inl e => Rejects e
     | inr response =>
         match Gemini.handleApiResponse trim response with
         | Gemini.Returns url => Fulfils url
         | Gemini.Throws message => Rejects (newError message)
         end
     end).
Proof.
  destruct r as [e|response]; cbn [Client.interpret exec]; [reflexivity|].
  destruct (Gemini.handleApiResponse trim response); reflexivity.
Qed.

(** How [fileToPart] runs on a host. *)
Lemma exec_fileToPart (host : Host Thrown WebBlob) (file : App.File) :
  exec host (fileToPart file)
  = ([ReadCall (fileSource file)],
     match read host (fileSource file) with
     | inl e => Rejects e
     | inr dataUrl =>
         match DataUrl.dataUrlToParts dataUrl with
         | DataUrl.Ok parts => Fulfils (InlinePart parts)
         | DataUrl.Error message => Rejects (newError message)
         end
     end).
Proof.
  cbn [Client.fileToPart exec].
  destruct (read host (fileSource file)) as [e|dataUrl]; [reflexivity|].
  unfold dataUrlToPart.
  destruct (DataUrl.dataUrlToParts dataUrl); reflexivity.
Qed.

(** How [generateLogoOnBoxImage] goes on once it has the box part. *)
Lemma exec_after_box (host : Host Thrown WebBlob) (logo : App.File)
  (boxImagePart : RequestPart) :
  exec host
    (bind (fileToPart logo)
       (fun logoImagePart =>
          Generate (logoRequest boxImagePart logoImagePart) interpret))
  = match read host (fileSource logo) with
    | inl e => ([ReadCall (fileSource logo)], Rejects e)
    | inr dataUrl =>
        match DataUrl.dataUrlToParts dataUrl with
        | DataUrl.Ok parts =>
            ([ReadCall (fileSource logo);
              GenerateCall (logoRequest boxImagePart (InlinePart parts))],
             snd (exec host
                    (interpret
                       (generated host
                          (logoRequest boxImagePart (InlinePart parts))))))
        | DataUrl.Error message =>
            ([ReadCall (fileSource logo)], Rejects (newError message))
        end
    end.
Proof.
  rewrite exec_bind, exec_fileToPart.
  destruct (read host (fileSource logo)) as [e|dataUrl]; [reflexivity|].
  destruct (DataUrl.dataUrlToParts dataUrl) as [parts|message];
    [|reflexivity].
  now rewrite exec_generate.
Qed.

(** X5.  [generateAngleVariation] on a base image that
    [dataUrlToParts] refuses rejects with that error and calls nothing,
    whatever the host would answer. *)
Theorem angle_variation_malformed_base (host : Host Thrown WebBlob)
  (boxImageUrl message : string) (angleInstruction : JS.value) :
  DataUrl.dataUrlToParts boxImageUrl = DataUrl.Error message ->
  exec host (generateAngleVariation boxImageUrl angleInstruction)
  = ([], Rejects (newError message)).
Proof.
  intros Hparse. unfold Client.generateAngleVariation, dataUrlToPart.
  now rewrite Hparse.
Qed.

(** X6.  Regenerating from an image the interpreter returned sends that
    image back: for a blob whose MIME type is not empty and holds no
    semicolon, comma or line terminator and whose data hold no comma,
    [generateAngleVariation] of its data URL makes exactly one call, a
    [generateContent] for the model "gemini-2.5-flash-image-preview"
    with image and text modalities, whose parts are the inline image
    with that MIME type and those data, then the text of the prompt
    with the angle instruction in it; a rejection of that call is
    passed on, and an answer is settled as [handleApiResponse] completes
    on it. *)
Theorem angle_variation_sends_interpreter_image
  (host : Host Thrown WebBlob) (b : Gemini.Blob) (mime payload : string)
  (angleInstruction : JS.value) :
  Gemini.mimeType b = Some mime ->
  Gemini.data b = Some payload ->
  mime <> "" ->
  DataUrl.occurs ";" mime = false ->
  DataUrl.occurs "," mime = false ->
  DataUrl.oneLine mime = true ->
  DataUrl.occurs "," payload = false ->
  let request :=
    {| requestModel := "gemini-2.5-flash-image-preview";
       contents :=
         [ InlinePart
             {| DataUrl.mimeType := mime; DataUrl.data := payload |};
           TextPart
             ("Take the provided image of a product box. Generate a new image showing the exact same box and logo, but from a different angle described as: "
                 ++ JS.dquote ++ JS.template angleInstruction ++ JS.dquote
                 ++ ". Keep the style, lighting, and background consistent. Output only the newly generated image.") ];
       responseModalities := [IMAGE; TEXT] |} in
  exec host (generateAngleVariation (Gemini.dataUrl b) angleInstruction)
  = ([GenerateCall request],
     match generated host request with
     | inl e => Rejects e
     | inr response =>
         match Gemini.handleApiResponse trim response with
         | Gemini.Returns url => Fulfils url
         | Gemini.Throws message => Rejects (newError message)
         end
     end).
Proof.
  intros Hmime Hdata Hne Hsemi Hcomma Hline Hpayload request.
  assert (DataUrl.dataUrlToParts (Gemini.dataUrl b)
          = DataUrl.Ok
              {| DataUrl.mimeType := mime; DataUrl.data := payload |})
    as Hparse.
  { unfold Gemini.dataUrl. rewrite Hmime, Hdata. cbn [JS.template].
    rewrite <- (DataUrlFacts.append_empty payload) at 1.
    apply (DataUrlFacts.parse_header "data" mime "base64" payload "");
      try assumption; try reflexivity.
    now left. }
  unfold Client.generateAngleVariation, dataUrlToPart.
  rewrite Hparse. cbn [call bind].
  rewrite exec_generate, exec_interpret_value. reflexivity.
Qed.

(** X7.  When the box image is fetched and the response is not ok,
    [generateLogoOnBoxImage] rejects with "Failed to fetch image from
    URL" and the url; the fetch is its only call: the logo is not read
    and the provider is not called. *)
Theorem logo_on_box_fetch_not_ok (host : Host Thrown WebBlob)
  (box : App.BoxItem) (logo : App.File)
  (response : Response Thrown WebBlob) :
  prefix "data:" (App.url box) = false ->
  fetched host (App.url box) = inr response ->
  ok response = false ->
  exec host (generateLogoOnBoxImage box logo)
  = ([FetchCall (App.url box)],
     Rejects
       (newError ("Failed to fetch image from URL: " ++ App.url box))).
Proof.
  intros Hprefix Hfetch Hok.
  unfold Client.generateLogoOnBoxImage. rewrite Hprefix, exec_bind.
  cbn [Client.urlToPart exec]. rewrite Hfetch, Hok. reflexivity.
Qed.

Lemma exec_unparseable_box
  (host : Host Thrown WebBlob) (box : App.BoxItem) (logo : App.File)
  (response : Response Thrown WebBlob) (b : WebBlob)
  (dataUrl message : string) :
  prefix "data:" (App.url box) = false ->
  fetched host (App.url box) = inr response ->
  ok response = true ->
  blob response = inr b ->
  read host (blobSource b) = inr dataUrl ->
  DataUrl.dataUrlToParts dataUrl = DataUrl.Error message ->
  exec host (generateLogoOnBoxImage box logo)
  = ([FetchCall (App.url box); ReadCall (blobSource b)], NeverSettles).
Proof.
  intros Hprefix Hfetch Hok Hblob Hread Hparse.
  unfold Client.generateLogoOnBoxImage. rewrite Hprefix, exec_bind.
  cbn [Client.urlToPart exec]. rewrite Hfetch, Hok, Hblob. cbn [negb exec].
  rewrite Hread. unfold dataUrlToPart. rewrite Hparse. reflexivity.
Qed.

(** X8.  When the fetched box image reads as a data URL that
    [dataUrlToParts] refuses, the throw happens inside [reader.onload]:
    [generateLogoOnBoxImage] never settles, after the fetch and the read
    and nothing else. *)
Theorem logo_on_box_unparseable_box_never_settles
  (host : Host Thrown WebBlob) (box : App.BoxItem) (logo : App.File)
  (response : Response Thrown WebBlob) (b : WebBlob)
  (dataUrl message : string) :
  prefix "data:" (App.url box) = false ->
  fetched host (App.url box) = inr response ->
  ok response = true ->
  blob response = inr b ->
  read host (blobSource b) = inr dataUrl ->
  DataUrl.dataUrlToParts dataUrl = DataUrl.Error message ->
  exec host (generateLogoOnBoxImage box logo)
  = ([FetchCall (App.url box); ReadCall (blobSource b)], NeverSettles).
Proof. exact (exec_unparseable_box host box logo response b dataUrl message). Qed.

(** X9.  The same refusal for the logo rejects: with an inline box
    image that parses, a logo whose data URL [dataUrlToParts] refuses
    makes [generateLogoOnBoxImage] reject with that error after the one
    read, without a call to the provider. *)
Theorem logo_on_box_unparseable_logo_rejects
  (host : Host Thrown WebBlob) (box : App.BoxItem) (logo : App.File)
  (boxParts : DataUrl.InlineData) (dataUrl message : string) :
  prefix "data:" (App.url box) = true ->
  DataUrl.dataUrlToParts (App.url box) = DataUrl.Ok boxParts ->
  read host (fileSource logo) = inr dataUrl ->
  DataUrl.dataUrlToParts dataUrl = DataUrl.Error message ->
  exec host (generateLogoOnBoxImage box logo)
  = ([ReadCall (fileSource logo)], Rejects (newError message)).
Proof.
  intros Hprefix Hbox Hread Hparse.
  unfold Client.generateLogoOnBoxImage. rewrite Hprefix.
  unfold dataUrlToPart at 1. rewrite Hbox. cbn [call].
  rewrite exec_bind. cbn [exec app].
  rewrite (exec_after_box host logo (InlinePart boxParts)).
  now rewrite Hread, Hparse.
Qed.

(** Getting the box part never calls the provider. *)
Lemma box_part_calls (host : Host Thrown WebBlob) (url : string)
  (params : GenerateContentParameters) :
  ~ In (GenerateCall params)
      (fst (exec host
              (if prefix "data:" url
               then call Thrown newError WebBlob (dataUrlToPart url)
               else urlToPart url))).
Proof.
  destruct (prefix "data:" url).
  - destruct (dataUrlToPart url); simpl; tauto.
  - cbn [Client.urlToPart exec].
    destruct (fetched host url) as [e|response]; [simpl; intuition congruence|].
    destruct (ok response); cbn [negb exec]; [|simpl; intuition congruence].
    destruct (blob response) as [e|b]; [simpl; intuition congruence|].
    cbn [exec]. destruct (read host (blobSource b)) as [e|dataUrl];
      [simpl; intuition congruence|].
    destruct (dataUrlToPart dataUrl); simpl; intuition congruence.
Qed.

(** X10.  A box whose url starts with "data:" is never fetched: no call
    [generateLogoOnBoxImage] makes for it is a [fetch]. *)
Theorem inline_box_never_fetched (host : Host Thrown WebBlob)
  (box : App.BoxItem) (logo : App.File) (url : string) :
  prefix "data:" (App.url box) = true ->
  ~ In (FetchCall url) (fst (exec host (generateLogoOnBoxImage box logo))).
Proof.
  intros Hprefix.
  unfold Client.generateLogoOnBoxImage. rewrite Hprefix, exec_bind.
  destruct (dataUrlToPart (App.url box)) as [part|message];
    cbn [call exec]; [|simpl; tauto].
  rewrite (exec_after_box host logo part).
  destruct (read host (fileSource logo)) as [e|dataUrl];
    [simpl; intuition congruence|].
  destruct (DataUrl.dataUrlToParts dataUrl); simpl; intuition congruence.
Qed.

(** Where the box part comes from: the box url itself when it is
    inline, else the data URL read from the fetched blob. *)
Lemma box_part_origin (host : Host Thrown WebBlob) (url : string)
  (earlier : list (Call WebBlob)) (part : RequestPart) :
  exec host
    (if prefix "data:" url
     then call Thrown newError WebBlob (dataUrlToPart url)
     else urlToPart url)
  = (earlier, Fulfils part) ->
  exists boxParts,
    part = InlinePart boxParts
    /\ (prefix "data:" url = true
        /\ earlier = []
        /\ DataUrl.dataUrlToParts url = DataUrl.Ok boxParts
        \/ prefix "data:" url = false
           /\ exists response b boxUrl,
               fetched host url = inr response
               /\ ok response = true
               /\ blob response = inr b
               /\ read host (blobSource b) = inr boxUrl
               /\ earlier = [FetchCall url; ReadCall (blobSource b)]
               /\ DataUrl.dataUrlToParts boxUrl = DataUrl.Ok boxParts).
Proof.
  destruct (prefix "data:" url) eqn:Hprefix.
  - unfold dataUrlToPart.
    destruct (DataUrl.dataUrlToParts url) as [boxParts|message];
      cbn [call exec]; [|discriminate].
    intros [= <- <-]. exists boxParts. split; [reflexivity|].
    left. repeat split.
  - cbn [Client.urlToPart exec].
    destruct (fetched host url) as [e|response] eqn:Hfetch;
      [discriminate|].
    destruct (ok response) eqn:Hok; cbn [negb exec]; [|discriminate].
    destruct (blob response) as [e|b] eqn:Hblob; [discriminate|].
    cbn [exec].
    destruct (read host (blobSource b)) as [e|boxUrl] eqn:Hread;
      [discriminate|].
    unfold dataUrlToPart.
    destruct (DataUrl.dataUrlToParts boxUrl) as [boxParts|message]
      eqn:Hparse; cbn [exec]; [|discriminate].
    intros [= <- <-]. exists boxParts. split; [reflexivity|].
    right. split; [reflexivity|].
    exists response, b, boxUrl. repeat split; assumption.
Qed.

(** X11.  Whenever [generateLogoOnBoxImage] calls the provider, that is
    its last call and the only one to the provider, and it comes right
    after the logo was read and parsed.  The request is for the model
    "gemini-2.5-flash-image-preview" with image and text modalities,
    and its parts are, in this order: the box image, parsed from the box
    url itself when that starts with "data:" and else from the data URL
    read from the fetched blob; the logo image, parsed from the data URL
    read from the logo file; the text of the prompt.  A rejection of the
    call is passed on, and an answer is settled as [handleApiResponse]
    completes on it. *)
Theorem provider_called_last_with_box_then_logo
  (host : Host Thrown WebBlob) (box : App.BoxItem) (logo : App.File)
  (params : GenerateContentParameters) :
  In (GenerateCall params)
    (fst (exec host (generateLogoOnBoxImage box logo))) ->
  exists earlier boxParts logoUrl logoParts,
    fst (exec host (generateLogoOnBoxImage box logo))
    = (earlier ++ [ReadCall (fileSource logo); GenerateCall params])%list
    /\ (forall other, ~ In (GenerateCall other) earlier)
    /\ (prefix "data:" (App.url box) = true
        /\ earlier = []
        /\ DataUrl.dataUrlToParts (App.url box) = DataUrl.Ok boxParts
        \/ prefix "data:" (App.url box) = false
           /\ exists response b boxUrl,
               fetched host (App.url box) = inr response
               /\ ok response = true
               /\ blob response = inr b
               /\ read host (blobSource b) = inr boxUrl
               /\ earlier
                  = [FetchCall (App.url box); ReadCall (blobSource b)]
               /\ DataUrl.dataUrlToParts boxUrl = DataUrl.Ok boxParts)
    /\ read host (fileSource logo) = inr logoUrl
    /\ DataUrl.dataUrlToParts logoUrl = DataUrl.Ok logoParts
    /\ params
       = {| requestModel := "gemini-2.5-flash-image-preview";
            contents :=
              [ InlinePart boxParts;
                InlinePart logoParts;
                TextPart
                  ("Replace the " ++ JS.dquote ++ "TASTY BOX" ++ JS.dquote
                    ++ " text on the first image (the box) with the second image (the logo). The logo must be placed realistically on the box's front, matching the lighting, texture, and perspective. Output ONLY the resulting image.") ];
            responseModalities := [IMAGE; TEXT] |}
    /\ snd (exec host (generateLogoOnBoxImage box logo))
       = match generated host params with
         | inl e => Rejects e
         | inr response =>
             match Gemini.handleApiResponse trim response with
             | Gemini.Returns url => Fulfils url
             | Gemini.Throws message => Rejects (newError message)
             end
         end.
Proof.
  unfold Client.generateLogoOnBoxImage. rewrite exec_bind.
  pose proof (box_part_calls host (App.url box)) as Hbox.
  pose proof (box_part_origin host (App.url box)) as Horigin.
  destruct (exec host _) as [earlier [boxImagePart|e|]];
    cbn [fst snd] in *; try (intros H; now apply Hbox in H).
  destruct (Horigin earlier boxImagePart eq_refl)
    as (boxParts & -> & Hfrom).
  rewrite (exec_after_box host logo (InlinePart boxParts)).
  destruct (read host (fileSource logo)) as [e|logoUrl] eqn:Hread.
  - cbn [fst]. intros H. apply in_app_or in H.
    destruct H as [H|[H|[]]]; [now apply Hbox in H|discriminate].
  - destruct (DataUrl.dataUrlToParts logoUrl) as [logoParts|message]
      eqn:Hparse; cbn [fst snd].
    + intros H. apply in_app_or in H.
      destruct H as [H|[H|[H|[]]]];
        [now apply Hbox in H|discriminate|].
      injection H as <-.
      exists earlier, boxParts, logoUrl, logoParts.
      rewrite exec_interpret_value. cbn [snd].
      repeat split; assumption.
    + intros H. apply in_app_or in H.
      destruct H as [H|[H|[]]]; [now apply Hbox in H|discriminate].
Qed.

Lemma perform_fulfils_data_url (host : Host Thrown WebBlob)
  (request : App.Request) (newImageUrl : string) :
  snd (exec host (perform request)) = Fulfils newImageUrl ->
  exists b, newImageUrl = Gemini.dataUrl b.
Proof.
  intros Hrun.
  destruct request as [box logo|boxImageUrl angleInstruction];
    cbn [Client.perform] in Hrun.
  - unfold Client.generateLogoOnBoxImage in Hrun.
    rewrite exec_bind in Hrun.
    destruct (exec host _) as [earlier [boxImagePart|e|]];
      try discriminate.
    rewrite (exec_after_box host logo boxImagePart) in Hrun.
    destruct (read host (fileSource logo)) as [e|dataUrl];
      [discriminate|].
    destruct (DataUrl.dataUrlToParts dataUrl) as [logoParts|message];
      [|discriminate].
    cbn [snd] in Hrun.
    now apply (exec_interpret Thrown newError WebBlob trim host) in Hrun.
  - unfold Client.generateAngleVariation in Hrun.
    destruct (dataUrlToPart boxImageUrl) as [part|message];
      cbn [call bind] in Hrun; [|discriminate].
    rewrite exec_generate in Hrun. cbn [snd] in Hrun.
    now apply (exec_interpret Thrown newError WebBlob trim host) in Hrun.
Qed.

(** X12.  Whatever either operation of the client fulfils with is a
    data URL the interpreter built from an inline image: it starts with
    "data:" and is never empty. *)
Theorem fulfilled_image_is_data_url (host : Host Thrown WebBlob)
  (request : App.Request) (newImageUrl : string) :
  snd (exec host (perform request)) = Fulfils newImageUrl ->
  exists b,
    newImageUrl = Gemini.dataUrl b
    /\ prefix "data:" newImageUrl = true
    /\ newImageUrl <> "".
Proof.
  intros Hrun.
  destruct (perform_fulfils_data_url host request newImageUrl Hrun)
    as (b & ->).
  exists b. split; [reflexivity|].
  split; [|apply GeminiFacts.dataUrl_nonempty].
  unfold Gemini.dataUrl. apply DataUrlFacts.prefix_append.
Qed.

End WithHost.

End ClientProps.

(** ** Sessions run one operation at a time *)

Module CacheFacts.

Import App.

Lemma get_None_keys (o : Obj.t) (k : string) :
  Obj.get o k = None <-> ~ In k (Obj.keys o).
Proof.
  induction o as [|[k0 v0] o IH]; simpl; [tauto|].
  destruct (String.eqb_spec k0 k) as [->|Hk].
  - split; [discriminate|]. intros H. exfalso. apply H. now left.
  - rewrite IH. tauto.
Qed.

Lemma keys_set_absent (o : Obj.t) (k v : string) :
  Obj.get o k = None -> Obj.keys (Obj.set o k v) = (Obj.keys o ++ [k])%list.
Proof.
  induction o as [|[k0 v0] o IH]; simpl; [reflexivity|].
  destruct (String.eqb_spec k0 k) as [->|Hk]; [discriminate|].
  intros H. simpl. now rewrite (IH H).
Qed.

Lemma keys_set_present (o : Obj.t) (k v old : string) :
  Obj.get o k = Some old -> Obj.keys (Obj.set o k v) = Obj.keys o.
Proof.
  induction o as [|[k0 v0] o IH]; simpl; [discriminate|].
  destruct (String.eqb_spec k0 k) as [->|Hk]; [reflexivity|].
  intros H. simpl. now rewrite (IH H).
Qed.

Lemma keys_set (o : Obj.t) (k v : string) :
  Obj.keys (Obj.set o k v) = Obj.keys o /\ In k (Obj.keys o)
  \/ Obj.keys (Obj.set o k v) = (Obj.keys o ++ [k])%list
     /\ ~ In k (Obj.keys o).
Proof.
  destruct (Obj.get o k) as [old|] eqn:Hget.
  - left. split; [now apply keys_set_present with old|].
    destruct (in_dec string_dec k (Obj.keys o)) as [H|H]; [exact H|].
    apply get_None_keys in H. congruence.
  - right. split; [now apply keys_set_absent|now apply get_None_keys].
Qed.

Lemma NoDup_keys_set (o : Obj.t) (k v : string) :
  NoDup (Obj.keys o) -> NoDup (Obj.keys (Obj.set o k v)).
Proof.
  intros Ho. destruct (keys_set o k v) as [[-> _]|[-> Hk]]; [exact Ho|].
  apply NoDup_app; [exact Ho|repeat constructor; simpl; tauto|].
  intros x Hx [<-|[]]. contradiction.
Qed.

Lemma Forall_keys_set (P : string -> Prop) (o : Obj.t) (k v : string) :
  P k -> Forall P (Obj.keys o) -> Forall P (Obj.keys (Obj.set o k v)).
Proof.
  intros Hk Ho. destruct (keys_set o k v) as [[-> _]|[-> _]]; [exact Ho|].
  apply Forall_app. split; [exact Ho|now repeat constructor].
Qed.

(** The key of a view is an angle instruction, or "undefined" for an
    index out of range. *)
Lemma viewKey_known (index : Z) :
  In (Spec.viewKey index) ANGLE_INSTRUCTIONS
  \/ Spec.viewKey index = "undefined".
Proof.
  unfold Spec.viewKey, JS.index.
  destruct (index <? 0)%Z; [now right|].
  destruct (nth_error ANGLE_INSTRUCTIONS (Z.to_nat index)) as [key|] eqn:H;
    [|now right].
  left. now apply nth_error_In with (Z.to_nat index).
Qed.

Lemma set_first_key (o : Obj.t) (k v key image : string) (rest : Obj.t) :
  o = (key, image) :: rest ->
  exists image' rest', Obj.set o k v = (key, image') :: rest'.
Proof.
  intros ->. simpl. destruct (key =? k); eauto.
Qed.

End CacheFacts.

Module SessionProps.

Import App Spec Invariant JSFacts ObjFacts CacheFacts.

Section WithMessages.

Variable Thrown : Type.
Variable getFriendlyErrorMessage : Thrown -> string -> string.

Abbreviation handleAngleSelect :=
  (App.handleAngleSelect getFriendlyErrorMessage).
Abbreviation handleStart := (App.handleStart getFriendlyErrorMessage).
Abbreviation apply := (App.apply getFriendlyErrorMessage).
Abbreviation run := (App.run getFriendlyErrorMessage).

(** What holds of a session between two operations. *)
Lemma apply_keeps_settled (op : Op Thrown) (s : State) :
  selectionCached s /\ frontFirst s /\ paired s /\ idle s ->
  selectionCached (apply op s) /\ frontFirst (apply op s)
  /\ paired (apply op s) /\ idle (apply op s).
Proof.
  intros (Hsel & Hfront & Hpair & Hidle).
  destruct op as [box logo [url|err]|newIndex outcome|]; cbn [App.apply].
  - repeat split; try discriminate.
    right. exists url. reflexivity.
  - repeat split; try assumption; apply Hpair.
  - pose proof (ControllerProps.handleAngleSelect_case
                  Thrown getFriendlyErrorMessage newIndex s) as Hcase.
    remember (handleAngleSelect newIndex s) as h eqn:Hh.
    destruct Hcase as [Hig|image Hl Hne Hbox Hget Himage|Hl Hne Hbox Hab Hnb
                      |key base rest Hl Hne Hbox Hab Hcache Hbase];
      cbn [settle].
    + repeat split; try assumption; try apply Hpair; apply Hidle.
    + repeat split; try assumption; try apply Hpair; try apply Hidle.
      right. exists image. exact Hget.
    + repeat split; try assumption; try apply Hpair; apply Hidle.
    + destruct outcome as [url|err].
      * repeat split; try apply Hpair.
        -- right. exists url. apply get_set_same.
        -- unfold frontFirst in *. cbn [resumeAngleSelect generatedImages
             setGeneratedImages setIsLoading setLoadingMessage
             setCurrentAngleIndex setError].
           rewrite Hcache in *.
           destruct (set_first_key _ (JS.template
                       (JS.index ANGLE_INSTRUCTIONS newIndex)) url
                       key base rest eq_refl) as (image' & rest' & ->).
           exact Hfront.
      * repeat split; try assumption; try apply Hpair.
  - repeat split. now left.
Qed.

Lemma run_keeps_settled (ops : list (Op Thrown)) (s : State) :
  selectionCached s /\ frontFirst s /\ paired s /\ idle s ->
  selectionCached (run ops s) /\ frontFirst (run ops s)
  /\ paired (run ops s) /\ idle (run ops s).
Proof.
  revert s. induction ops as [|op ops IH]; intros s Hs; [exact Hs|].
  cbn [App.run fold_left]. apply IH. now apply apply_keeps_settled.
Qed.

Lemma session_settled (ops : list (Op Thrown)) :
  selectionCached (run ops initialState)
  /\ frontFirst (run ops initialState)
  /\ paired (run ops initialState)
  /\ idle (run ops initialState).
Proof.
  apply run_keeps_settled. repeat split. now left.
Qed.

(** X13.  Between operations the displayed image is the selected view's
    own: after any sequence of Start, SelectView and Reset, each run to
    its end, either the cache is empty and the box url (if any) is
    displayed, or the selected view has a cache entry and that entry is
    displayed: between such operations the oldest entry never stands in
    for the selected view. *)
Theorem settled_session_shows_selected_view (ops : list (Op Thrown)) :
  generatedImages (run ops initialState) = []
  /\ displayImageUrl (run ops initialState)
     = option_map url (selectedBox (run ops initialState))
  \/ exists image,
      Obj.get (generatedImages (run ops initialState))
        (selectedView (run ops initialState)) = Some image
      /\ displayImageUrl (run ops initialState) = Some image.
Proof.
  destruct (session_settled ops) as ([Hempty|(image & Hget)] & _).
  - left. split; [exact Hempty|].
    unfold displayImageUrl. now rewrite Hempty.
  - right. exists image. split; [exact Hget|].
    unfold displayImageUrl. fold (selectedView (run ops initialState)).
    now rewrite Hget.
Qed.

(** X14.  In such a session every regeneration starts from the front
    view: whenever SelectView issues a request, the base image it sends
    is the cache entry of "Vista Frontal". *)
Theorem regeneration_base_is_front_view (ops : list (Op Thrown))
  (newIndex : Z) (s1 : State) (request : Request)
  (resume : Settled Thrown -> State -> State) :
  handleAngleSelect newIndex (run ops initialState)
  = Await s1 request resume ->
  exists base,
    Obj.get (generatedImages (run ops initialState)) "Vista Frontal"
    = Some base
    /\ request
       = generateAngleVariation base (JS.index ANGLE_INSTRUCTIONS newIndex).
Proof.
  intros H.
  destruct (ControllerProps.handleAngleSelect_awaiting
              Thrown getFriendlyErrorMessage _ _ _ _ _ H)
    as (key & base & rest & Hcache & _ & _ & Hrequest & _).
  destruct (session_settled ops) as (_ & Hfront & _).
  unfold frontFirst in Hfront. rewrite Hcache in *. subst key.
  exists base. split; [|exact Hrequest].
  cbn [Obj.get]. now rewrite String.eqb_refl.
Qed.

(** X15.  After any such sequence nothing is left pending, the loading
    message is empty, and box and logo are selected together, so the
    start screen is rendered exactly when no box is selected. *)
Theorem settled_session_idle_and_paired (ops : list (Op Thrown)) :
  isLoading (run ops initialState) = false
  /\ loadingMessage (run ops initialState) = ""
  /\ (selectedBox (run ops initialState) = None
      <-> logoFile (run ops initialState) = None)
  /\ Render.showsStartScreen (run ops initialState)
     = negb (JS.defined (selectedBox (run ops initialState))).
Proof.
  destruct (session_settled ops) as (_ & _ & Hpair & Hl & Hm).
  repeat split; try assumption; try apply Hpair.
  unfold Render.showsStartScreen. unfold paired in Hpair.
  destruct (selectedBox (run ops initialState)) as [box|],
           (logoFile (run ops initialState)) as [logo|];
    try reflexivity.
  - destruct Hpair as [_ Hpair]. discriminate (Hpair eq_refl).
Qed.

End WithMessages.

End SessionProps.

(** ** Requests that settle at any time *)

Module EventLoopProps.

Import App EventLoop LoopInvariant ObjFacts CacheFacts.

Section Kept.

Variable Thrown : Type.
Variable getFriendlyErrorMessage : Thrown -> string -> string.
Variable P : Obj.t -> Prop.
Variable okImage : string -> Prop.

Hypothesis P_empty : P [].
Hypothesis P_first :
  forall image, okImage image -> P [(Spec.viewKey 0, image)].
Hypothesis P_set :
  forall o index image,
    okImage image -> P o -> P (Obj.set o (Spec.viewKey index) image).

Abbreviation step := (EventLoop.step Thrown getFriendlyErrorMessage).
Abbreviation play := (EventLoop.play Thrown getFriendlyErrorMessage).
Abbreviation good := (LoopInvariant.good Thrown P okImage).
Abbreviation keeps := (LoopInvariant.keeps Thrown P okImage).

Lemma Forall_without {A : Type} (Q : A -> Prop) (n : nat) (l : list A) :
  Forall Q l -> Forall Q (without n l).
Proof.
  intros Hl. revert n.
  induction Hl as [|x l Hx Hl IH]; intros [|n]; simpl; auto.
Qed.

Lemma resumeStart_keeps : keeps (resumeStart getFriendlyErrorMessage).
Proof.
  intros [image|err] t Hok Ht; cbn.
  - now apply P_first.
  - exact Ht.
Qed.

Lemma resumeAngleSelect_keeps (prevAngleIndex newIndex : Z) :
  keeps
    (resumeAngleSelect getFriendlyErrorMessage prevAngleIndex
       (JS.index ANGLE_INSTRUCTIONS newIndex)).
Proof.
  intros [image|err] t Hok Ht;
    cbn [resumeAngleSelect generatedImages setGeneratedImages setIsLoading
         setLoadingMessage setCurrentAngleIndex setError].
  - now apply P_set.
  - exact Ht.
Qed.

(** What a call of the closure does to the latest state: nothing, or
    the selected view, or the commitment before its await. *)
Lemma handleAngleSelectFrom_shape (closure : State) (newIndex : Z)
  (s : State) :
  handleAngleSelectFrom Thrown getFriendlyErrorMessage closure newIndex s
  = Done s
  \/ handleAngleSelectFrom Thrown getFriendlyErrorMessage closure newIndex s
     = Done (setCurrentAngleIndex newIndex s)
  \/ exists s1 base,
      handleAngleSelectFrom Thrown getFriendlyErrorMessage closure
        newIndex s
      = Await s1
          (generateAngleVariation base
             (JS.index ANGLE_INSTRUCTIONS newIndex))
          (resumeAngleSelect getFriendlyErrorMessage
             (currentAngleIndex closure)
             (JS.index ANGLE_INSTRUCTIONS newIndex))
      /\ generatedImages s1 = generatedImages s
      /\ JS.index (Obj.values (generatedImages closure)) 0 = Some base.
Proof.
  unfold handleAngleSelectFrom.
  destruct (_ || _ || _); [now left|].
  destruct (JS.truthy (Obj.get _ _)); [right; now left|].
  destruct (JS.index (Obj.values (generatedImages closure)) 0)
    as [base|]; [|now left].
  destruct (negb (JS.truthy (Some base))); [now left|].
  right. right. eexists _, base. repeat split.
Qed.

Lemma step_keeps_good (e : Event Thrown) (c : Config Thrown) :
  okEvent Thrown okImage e -> good c -> good (step e c).
Proof.
  intros He (Hstate & Hflight).
  destruct e as [box logo|newIndex| |n outcome|]; cbn [EventLoop.step].
  - split; [exact Hstate|].
    cbn [handleStart enter inFlight]. apply Forall_app.
    split; [exact Hflight|]. repeat constructor. apply resumeStart_keeps.
  - destruct (handleAngleSelectFrom_shape (rendered c) newIndex (state c))
      as [-> |[-> |(s1 & base & -> & Hcache & _)]]; cbn [enter].
    + split; assumption.
    + split; assumption.
    + split; cbn [state inFlight].
      * unfold LoopInvariant.good in *. now rewrite Hcache.
      * apply Forall_app. split; [exact Hflight|].
        repeat constructor. apply resumeAngleSelect_keeps.
  - split; [exact P_empty|exact Hflight].
  - destruct (nth_error (inFlight c) n) as [resume|] eqn:Hn;
      [|now split].
    split; cbn [state inFlight].
    + rewrite Forall_forall in Hflight.
      apply (Hflight resume); [|exact He|exact Hstate].
      now apply nth_error_In with n.
    + now apply Forall_without.
  - split; assumption.
Qed.

Lemma play_keeps_good (events : list (Event Thrown)) (c : Config Thrown) :
  Forall (okEvent Thrown okImage) events -> good c -> good (play events c).
Proof.
  intros Hevents. revert c.
  induction Hevents as [|e events He Hevents IH]; intros c Hc; [exact Hc|].
  cbn [EventLoop.play fold_left]. apply IH. now apply step_keeps_good.
Qed.

End Kept.

End EventLoopProps.

Module InterleavingProps.

Import App EventLoop Invariant ObjFacts CacheFacts.

Section WithMessages.

Variable Thrown : Type.
Variable getFriendlyErrorMessage : Thrown -> string -> string.

Abbreviation play := (EventLoop.play Thrown getFriendlyErrorMessage).

(** Called right after a render, the closure is the handler on the
    latest state. *)
Lemma handleAngleSelectFrom_rendered (s : State) (newIndex : Z) :
  handleAngleSelectFrom Thrown getFriendlyErrorMessage s newIndex s
  = App.handleAngleSelect getFriendlyErrorMessage newIndex s.
Proof. reflexivity. Qed.

(** The cache of the model never holds a key twice, as no object
    does. *)
Lemma cache_keys_distinct (events : list (Event Thrown)) :
  validObject (state (play events boot)).
Proof.
  refine (proj1
            (EventLoopProps.play_keeps_good Thrown getFriendlyErrorMessage
               (fun o => NoDup (Obj.keys o)) (fun _ => True)
               _ _ _ events boot _ _)).
  - constructor.
  - intros image _. constructor; [simpl; tauto|constructor].
  - intros o index image _ Hdup. now apply NoDup_keys_set.
  - apply Forall_forall. intros [box logo|newIndex| |n [image|err]|] _;
      exact I.
  - split; constructor.
Qed.

(** X16.  However calls, renders and settlements interleave (handlers
    that read the state of an earlier render, several requests in
    flight, a Reset or a Start before an earlier request settles), every
    key of the cache is one of the angle instructions or "undefined"
    (the key of an index out of range). *)
Theorem cache_keys_known_under_interleaving
  (events : list (Event Thrown)) :
  knownKeys (state (play events boot)).
Proof.
  refine (proj1
            (EventLoopProps.play_keeps_good Thrown getFriendlyErrorMessage
               (fun o =>
                  Forall
                    (fun key =>
                       In key ANGLE_INSTRUCTIONS \/ key = "undefined")
                    (Obj.keys o))
               (fun _ => True) _ _ _ events boot _ _)).
  - constructor.
  - intros image _. constructor; [apply (viewKey_known 0)|constructor].
  - intros o index image _ Hknown.
    apply Forall_keys_set; [apply viewKey_known|exact Hknown].
  - apply Forall_forall. intros [box logo|newIndex| |n [image|err]|] _;
      exact I.
  - split; constructor.
Qed.

(** X17.  However calls, renders and settlements interleave, as long as
    every image a fulfilled request delivers is a non-empty string, no
    cache entry is the empty string. *)
Theorem images_nonempty_under_interleaving
  (events : list (Event Thrown)) :
  Forall delivers events ->
  Spec.imagesNonEmpty (state (play events boot)).
Proof.
  intros Hevents.
  refine (proj1
            (EventLoopProps.play_keeps_good Thrown getFriendlyErrorMessage
               (Forall (fun entry : string * string => snd entry <> ""))
               (fun image => image <> "") _ _ _ events boot _ _)).
  - constructor.
  - intros image Himage. repeat constructor. exact Himage.
  - intros o index image Himage Ho.
    apply set_Forall; [exact Ho|]. intros k'. exact Himage.
  - eapply Forall_impl; [|exact Hevents].
    intros [box logo|newIndex| |n [image|err]|] H; exact H.
  - split; constructor.
Qed.

(** X18.  Reset does not cancel a request in flight.  When a Start is
    called with nothing in flight, the user starts over, and the request
    is fulfilled afterwards, its image lands in the reset session: no
    box and no logo are selected, yet the cache holds that image as the
    front view and it is what would be displayed. *)
Theorem reset_does_not_cancel (c : Config Thrown) (box : BoxItem)
  (logo : File) (newImageUrl : string) :
  inFlight c = [] ->
  Spec.noSession
    (state
       (play [CallStart box logo; CallStartOver;
              Settle 0 (Fulfilled newImageUrl)] c))
  /\ generatedImages
       (state
          (play [CallStart box logo; CallStartOver;
                 Settle 0 (Fulfilled newImageUrl)] c))
     = [("Vista Frontal", newImageUrl)]
  /\ displayImageUrl
       (state
          (play [CallStart box logo; CallStartOver;
                 Settle 0 (Fulfilled newImageUrl)] c))
     = Some newImageUrl
  /\ inFlight
       (play [CallStart box logo; CallStartOver;
              Settle 0 (Fulfilled newImageUrl)] c)
     = [].
Proof.
  intros Hflight.
  cbn [EventLoop.play fold_left EventLoop.step handleStart enter inFlight
       state].
  rewrite Hflight. cbn [app nth_error without].
  repeat split.
Qed.

End WithMessages.

End InterleavingProps.

(** ** The start screen *)

Module StartScreenProps.

Import StartScreen.

(** Only image files become the logo. *)
Lemma step_keeps_image_logo (e : Event) (s : State) :
  (forall logo, logoFile s = Some logo ->
                prefix "image/" (App.fileType logo) = true) ->
  forall logo, logoFile (fst (step e s)) = Some logo ->
               prefix "image/" (App.fileType logo) = true.
Proof.
  intros Hs.
  destruct e as [[[|file files]|]|result| |]; cbn [step fst];
    try exact Hs.
  - cbn [handleFileChange]. unfold handleFileSelect.
    destruct (prefix "image/" (App.fileType file)) eqn:Himage;
      cbn [negb fst]; [|exact Hs].
    intros logo [= <-]. exact Himage.
  - intros logo [=].
  - unfold handleGenerateClick.
    destruct (logoFile s) as [chosen|] eqn:Hchosen;
      cbn [fst logoFile setError]; intros logo Hlogo.
    + apply Hs. congruence.
    + congruence.
Qed.

Lemma started_with_image_logo (events : list Event) (s : State)
  (call : App.BoxItem * App.File) :
  (forall logo, logoFile s = Some logo ->
                prefix "image/" (App.fileType logo) = true) ->
  In call (started events s) ->
  fst call = defaultBox
  /\ prefix "image/" (App.fileType (snd call)) = true.
Proof.
  revert s. induction events as [|e events IH]; intros s Hs; [intros []|].
  cbn [started].
  pose proof (step_keeps_image_logo e s Hs) as Hnext.
  destruct (step e s) as [s' [made|]] eqn:Hstep; cbn [fst] in Hnext.
  - intros [<-|Hlater]; [|now apply (IH s')].
    destruct e as [files|result| |]; cbn [step] in Hstep;
      try discriminate.
    unfold handleGenerateClick in Hstep.
    destruct (logoFile s) as [logo|] eqn:Hlogo; [|discriminate].
    injection Hstep as <- <-. split; [reflexivity|now apply Hs].
  - now apply (IH s').
Qed.

(** X19.  Whatever happens on the start screen (files chosen or
    refused, previews arriving, the logo removed, the button clicked),
    every call it makes to [onStart] passes the default box and a logo
    file whose type starts with "image/". *)
Theorem start_screen_starts_with_image_logo (events : list Event)
  (call : App.BoxItem * App.File) :
  In call (started events initialState) ->
  fst call = defaultBox
  /\ prefix "image/" (App.fileType (snd call)) = true.
Proof.
  apply started_with_image_logo. intros logo [=].
Qed.

End StartScreenProps.

(** ** Sessions against a host *)

Module HostSessionProps.

Import App Client Invariant ObjFacts.

Section WithHost.

Variable Thrown : Type.
Variable newError : string -> Thrown.
Variable WebBlob : Type.
Variable trim : string -> string.
Variable getFriendlyErrorMessage : Thrown -> string -> string.

Abbreviation serve :=
  (Client.serve Thrown newError WebBlob trim getFriendlyErrorMessage).
Abbreviation session :=
  (Client.session Thrown newError WebBlob trim getFriendlyErrorMessage).
Abbreviation perform := (Client.perform Thrown newError WebBlob trim).
Abbreviation handleAngleSelect :=
  (App.handleAngleSelect getFriendlyErrorMessage).
Abbreviation handleStart := (App.handleStart getFriendlyErrorMessage).

Lemma serve_keeps_interpreter_images (host : Host Thrown WebBlob)
  (c : UICall) (s : State) :
  interpreterImages s -> interpreterImages (serve host c s).
Proof.
  unfold interpreterImages. intros Hs.
  destruct c as [box logo|newIndex|]; cbn [Client.serve].
  - cbn [App.handleStart Client.complete].
    destruct (snd (exec host _)) as [newImageUrl|err|] eqn:Hrun;
      try exact Hs.
    destruct (ClientProps.perform_fulfils_data_url
                Thrown newError WebBlob trim host _ _ Hrun) as (b & ->).
    constructor; [|constructor]. now exists b.
  - pose proof (ControllerProps.handleAngleSelect_case
                  Thrown getFriendlyErrorMessage newIndex s) as Hcase.
    remember (handleAngleSelect newIndex s) as h eqn:Hh.
    destruct Hcase; cbn [Client.complete]; try exact Hs.
    destruct (snd (exec host _)) as [newImageUrl|err|] eqn:Hrun;
      try exact Hs.
    destruct (ClientProps.perform_fulfils_data_url
                Thrown newError WebBlob trim host _ _ Hrun) as (b & ->).
    cbn [resumeAngleSelect generatedImages setGeneratedImages setIsLoading
         setLoadingMessage setCurrentAngleIndex setError].
    apply set_Forall; [exact Hs|]. intros k'. now exists b.
  - constructor.
Qed.

Lemma session_interpreter_images
  (calls : list (UICall * Host Thrown WebBlob)) :
  interpreterImages (session calls).
Proof.
  unfold Client.session.
  assert (interpreterImages initialState) as Hinit by constructor.
  revert Hinit. generalize initialState.
  induction calls as [|[c host] calls IH]; intros s Hs; [exact Hs|].
  cbn [fold_left fst snd]. apply IH.
  now apply serve_keeps_interpreter_images.
Qed.

(** X20.  In a session whose operations run one at a time, each with
    its requests run by the generation client against a host that may
    answer differently at every call (and may leave a request
    unsettled), every cached image is a data URL the interpreter built
    from an inline image, so none is the empty string. *)
Theorem session_images_are_interpreter_images
  (calls : list (UICall * Host Thrown WebBlob)) :
  interpreterImages (session calls)
  /\ Spec.imagesNonEmpty (session calls).
Proof.
  pose proof (session_interpreter_images calls) as H.
  split; [exact H|].
  unfold Spec.imagesNonEmpty. eapply Forall_impl; [|exact H].
  intros entry (b & ->). apply GeminiFacts.dataUrl_nonempty.
Qed.

(** X21.  In such a session a view that has a cache entry is always a
    hit: with nothing pending, a box selected and another view selected,
    SelectView of it issues no request and selects it. *)
Theorem session_entry_is_always_a_hit
  (calls : list (UICall * Host Thrown WebBlob))
  (newIndex : Z) (image : string) :
  Obj.get (generatedImages (session calls)) (Spec.viewKey newIndex)
  = Some image ->
  isLoading (session calls) = false ->
  newIndex <> currentAngleIndex (session calls) ->
  selectedBox (session calls) <> None ->
  handleAngleSelect newIndex (session calls)
  = Done (setCurrentAngleIndex newIndex (session calls)).
Proof.
  intros Hget Hl Hne Hbox.
  apply ControllerProps.handleAngleSelect_hit with image;
    try assumption.
  destruct (get_Forall _ _ _ _ (session_interpreter_images calls) Hget)
    as (k' & b & Himage).
  cbn [snd] in Himage. rewrite Himage.
  apply GeminiFacts.dataUrl_nonempty.
Qed.

(** X22.  A Start whose box image is fetched but reads as a data URL
    that [dataUrlToParts] refuses leaves the session pending for good:
    the request never settles, the loading flag stays set with the box
    selected and the cache untouched, and every later SelectView is
    ignored. *)
Theorem start_that_never_settles_stays_pending
  (host : Host Thrown WebBlob) (s : State)
  (box : BoxItem) (logo : File) (response : Response Thrown WebBlob)
  (b : WebBlob) (dataUrl message : string) :
  prefix "data:" (url box) = false ->
  fetched host (url box) = inr response ->
  ok response = true ->
  blob response = inr b ->
  read host (blobSource b) = inr dataUrl ->
  DataUrl.dataUrlToParts dataUrl = DataUrl.Error message ->
  isLoading (serve host (StartCall box logo) s) = true
  /\ selectedBox (serve host (StartCall box logo) s) = Some box
  /\ generatedImages (serve host (StartCall box logo) s)
     = generatedImages s
  /\ forall newIndex,
      serve host (SelectViewCall newIndex)
        (serve host (StartCall box logo) s)
      = serve host (StartCall box logo) s.
Proof.
  intros Hprefix Hfetch Hok Hblob Hread Hparse.
  assert (serve host (StartCall box logo) s
          = setLoadingMessage
              ("Colocando tu logo en la " ++ name box ++ "...")
              (setIsLoading true
                 (setError None
                    (setLogoFile (Some logo)
                       (setSelectedBox (Some box) s))))) as Hserve.
  { cbn [Client.serve App.handleStart Client.complete Client.perform].
    now rewrite (ClientProps.exec_unparseable_box
                   Thrown newError WebBlob trim host box logo response b
                   dataUrl message). }
  rewrite Hserve. repeat split.
Qed.

End WithHost.

End HostSessionProps.

(** ** What a fulfilled regeneration does *)

Module OutcomeProps.

Import App Spec ObjFacts CacheFacts.

Section WithMessages.

Variable Thrown : Type.
Variable getFriendlyErrorMessage : Thrown -> string -> string.

Abbreviation handleAngleSelect :=
  (App.handleAngleSelect getFriendlyErrorMessage).

(** X23.  When SelectView of a view with no cache entry issues its
    request and the request is fulfilled, the view's key is added after
    all the keys the cache had, every other entry keeps its image, the
    new image is the one displayed, the view stays selected and nothing
    is pending. *)
Theorem fulfilled_regeneration_appends_view (newIndex : Z) (s s1 : State)
  (request : Request) (resume : Settled Thrown -> State -> State)
  (newImageUrl : string) :
  Obj.get (generatedImages s) (viewKey newIndex) = None ->
  handleAngleSelect newIndex s = Await s1 request resume ->
  availableAngleKeys (resume (Fulfilled newImageUrl) s1)
  = (availableAngleKeys s ++ [viewKey newIndex])%list
  /\ (forall key,
         key <> viewKey newIndex ->
         Obj.get (generatedImages (resume (Fulfilled newImageUrl) s1)) key
         = Obj.get (generatedImages s) key)
  /\ displayImageUrl (resume (Fulfilled newImageUrl) s1) = Some newImageUrl
  /\ currentAngleIndex (resume (Fulfilled newImageUrl) s1) = newIndex
  /\ isLoading (resume (Fulfilled newImageUrl) s1) = false.
Proof.
  intros Hmiss H.
  destruct (ControllerProps.handleAngleSelect_awaiting
              Thrown getFriendlyErrorMessage _ _ _ _ _ H)
    as (key & base & rest & _ & _ & _ & _ & -> & Hc & Hi & _).
  assert (generatedImages
            (resumeAngleSelect getFriendlyErrorMessage (currentAngleIndex s)
               (JS.index ANGLE_INSTRUCTIONS newIndex)
               (Fulfilled newImageUrl) s1)
          = Obj.set (generatedImages s) (viewKey newIndex) newImageUrl)
    as Hcache by (rewrite <- Hc; reflexivity).
  assert (currentAngleIndex
            (resumeAngleSelect getFriendlyErrorMessage (currentAngleIndex s)
               (JS.index ANGLE_INSTRUCTIONS newIndex)
               (Fulfilled newImageUrl) s1) = newIndex)
    as Hindex by exact Hi.
  repeat split.
  - unfold availableAngleKeys. rewrite Hcache.
    now apply keys_set_absent.
  - intros k Hk. rewrite Hcache. now apply get_set_other.
  - unfold displayImageUrl. rewrite Hcache, Hindex.
    fold (viewKey newIndex). now rewrite get_set_same.
  - exact Hindex.
Qed.

End WithMessages.

End OutcomeProps.

(** ** The further properties on concrete inputs *)

Module ExtraScenarios.

Import Gemini App Client Sample HostSample.

Lemma dataUrlToParts_reads_header_witness :
  DataUrl.dataUrlToParts "data:text/plain;charset=utf-8;base64,AAAA,BBBB"
  = DataUrl.Ok
      {| DataUrl.mimeType := "text/plain"; DataUrl.data := "AAAA" |}.
Proof.
  assert ("text/plain" <> "") as Hne by discriminate.
  exact (DataUrlProps.dataUrlToParts_reads_header
           "data" "text/plain" "charset=utf-8;base64" "AAAA" ",BBBB"
           eq_refl eq_refl Hne eq_refl eq_refl eq_refl eq_refl eq_refl
           (or_intror (ex_intro _ "BBBB" eq_refl))).
Defined.

Lemma dataUrlToParts_result_shape_witness :
  DataUrl.dataUrlToParts "data:image/png;base64,AAAA"
  = DataUrl.Ok (pngParts "AAAA")
  /\ DataUrl.mimeType (pngParts "AAAA") <> ""
  /\ DataUrl.occurs ";" (DataUrl.mimeType (pngParts "AAAA")) = false
  /\ DataUrl.occurs "," (DataUrl.mimeType (pngParts "AAAA")) = false
  /\ DataUrl.oneLine (DataUrl.mimeType (pngParts "AAAA")) = true
  /\ DataUrl.occurs "," (DataUrl.data (pngParts "AAAA")) = false.
Proof.
  split; [reflexivity|].
  exact (DataUrlProps.dataUrlToParts_result_shape
           "data:image/png;base64,AAAA" (pngParts "AAAA") eq_refl).
Defined.

Lemma interpreter_image_round_trip_witness :
  DataUrl.dataUrlToParts (dataUrl pngBlob) = DataUrl.Ok (pngParts "AAAA").
Proof.
  assert ("image/png" <> "") as Hne by discriminate.
  exact (DataUrlProps.interpreter_image_round_trip
           pngBlob "image/png" "AAAA"
           eq_refl eq_refl Hne eq_refl eq_refl eq_refl eq_refl).
Defined.

Lemma angle_variation_malformed_base_witness :
  DataUrl.dataUrlToParts "corrupt" = DataUrl.Error "Invalid data URL"
  /\ exec okHost
       (generateAngleVariation string newError string trim "corrupt"
          (Some "Vista Superior"))
     = ([], Rejects (newError "Invalid data URL")).
Proof.
  split; [reflexivity|].
  exact (ClientProps.angle_variation_malformed_base
           string newError string trim okHost "corrupt" "Invalid data URL"
           (Some "Vista Superior") eq_refl).
Defined.

Lemma angle_variation_sends_interpreter_image_witness :
  exec okHost
    (generateAngleVariation string newError string trim (dataUrl pngBlob)
       (Some "Vista Superior"))
  = ([GenerateCall topViewRequest],
     match generated okHost topViewRequest with
     | inl e => Rejects e
     | inr response =>
         match handleApiResponse trim response with
         | Returns url => Fulfils url
         | Throws message => Rejects (newError message)
         end
     end).
Proof.
  assert ("image/png" <> "") as Hne by discriminate.
  exact (ClientProps.angle_variation_sends_interpreter_image
           string newError string trim okHost pngBlob "image/png" "AAAA"
           (Some "Vista Superior")
           eq_refl eq_refl Hne eq_refl eq_refl eq_refl eq_refl).
Defined.

Lemma logo_on_box_fetch_not_ok_witness :
  exec notFoundHost
    (generateLogoOnBoxImage string newError string trim boxA logoX)
  = ([FetchCall (url boxA)],
     Rejects (newError ("Failed to fetch image from URL: " ++ url boxA))).
Proof.
  exact (ClientProps.logo_on_box_fetch_not_ok
           string newError string trim notFoundHost boxA logoX
           {| ok := false; blob := inl "no body" |}
           eq_refl eq_refl eq_refl).
Defined.

Lemma logo_on_box_unparseable_box_never_settles_witness :
  exec emptyBodyHost
    (generateLogoOnBoxImage string newError string trim boxA logoX)
  = ([FetchCall (url boxA); ReadCall (blobSource "empty")], NeverSettles).
Proof.
  exact (ClientProps.logo_on_box_unparseable_box_never_settles
           string newError string trim emptyBodyHost boxA logoX
           {| ok := true; blob := inr "empty" |} "empty" "data:"
           "Invalid data URL"
           eq_refl eq_refl eq_refl eq_refl eq_refl eq_refl).
Defined.

Lemma logo_on_box_unparseable_logo_rejects_witness :
  exec emptyLogoHost
    (generateLogoOnBoxImage string newError string trim inlineBox logoX)
  = ([ReadCall (fileSource logoX)], Rejects (newError "Invalid data URL")).
Proof.
  exact (ClientProps.logo_on_box_unparseable_logo_rejects
           string newError string trim emptyLogoHost inlineBox logoX
           (pngParts "BOX") "data:" "Invalid data URL"
           eq_refl eq_refl eq_refl eq_refl).
Defined.

Lemma inline_box_never_fetched_witness :
  prefix "data:" (url inlineBox) = true
  /\ ~ In (FetchCall (url inlineBox))
         (fst (exec okHost
                 (generateLogoOnBoxImage string newError string trim
                    inlineBox logoX))).
Proof.
  split; [reflexivity|].
  exact (ClientProps.inline_box_never_fetched
           string newError string trim okHost inlineBox logoX
           (url inlineBox) eq_refl).
Defined.

Lemma provider_called_last_with_box_then_logo_witness :
  fst (exec okHost
         (generateLogoOnBoxImage string newError string trim
            inlineBox logoX))
  = [ReadCall (fileSource logoX); GenerateCall logoOnBoxRequest]
  /\ exists earlier boxParts logoUrl logoParts,
      fst (exec okHost
             (generateLogoOnBoxImage string newError string trim
                inlineBox logoX))
      = (earlier
           ++ [ReadCall (fileSource logoX);
               GenerateCall logoOnBoxRequest])%list
      /\ (forall other, ~ In (GenerateCall other) earlier)
      /\ (prefix "data:" (url inlineBox) = true
          /\ earlier = []
          /\ DataUrl.dataUrlToParts (url inlineBox) = DataUrl.Ok boxParts
          \/ prefix "data:" (url inlineBox) = false
             /\ exists response b boxUrl,
                 fetched okHost (url inlineBox) = inr response
                 /\ ok response = true
                 /\ blob response = inr b
                 /\ read okHost (blobSource b) = inr boxUrl
                 /\ earlier
                    = [FetchCall (url inlineBox); ReadCall (blobSource b)]
                 /\ DataUrl.dataUrlToParts boxUrl = DataUrl.Ok boxParts)
      /\ read okHost (fileSource logoX) = inr logoUrl
      /\ DataUrl.dataUrlToParts logoUrl = DataUrl.Ok logoParts
      /\ logoOnBoxRequest
         = {| requestModel := "gemini-2.5-flash-image-preview";
              contents :=
                [ InlinePart boxParts;
                  InlinePart logoParts;
                  TextPart
                    ("Replace the " ++ JS.dquote ++ "TASTY BOX" ++ JS.dquote
                       ++ " text on the first image (the box) with the second image (the logo). The logo must be placed realistically on the box's front, matching the lighting, texture, and perspective. Output ONLY the resulting image.") ];
              responseModalities := [IMAGE; TEXT] |}
      /\ snd (exec okHost
                (generateLogoOnBoxImage string newError string trim
                   inlineBox logoX))
         = match generated okHost logoOnBoxRequest with
           | inl e => Rejects e
           | inr response =>
               match handleApiResponse trim response with
               | Returns url => Fulfils url
               | Throws message => Rejects (newError message)
               end
           end.
Proof.
  assert (fst (exec okHost
                 (generateLogoOnBoxImage string newError string trim
                    inlineBox logoX))
          = [ReadCall (fileSource logoX); GenerateCall logoOnBoxRequest])
    as Hcalls by (vm_compute; reflexivity).
  split; [exact Hcalls|].
  apply (ClientProps.provider_called_last_with_box_then_logo
           string newError string trim okHost inlineBox logoX
           logoOnBoxRequest).
  rewrite Hcalls. right. left. reflexivity.
Defined.

Lemma fulfilled_image_is_data_url_witness :
  snd (exec okHost
         (perform string newError string trim
            (App.generateAngleVariation I1 (Some "Vista Superior"))))
  = Fulfils "data:image/png;base64,AAAA"
  /\ exists b,
      "data:image/png;base64,AAAA" = dataUrl b
      /\ prefix "data:" "data:image/png;base64,AAAA" = true
      /\ "data:image/png;base64,AAAA" <> "".
Proof.
  split; [reflexivity|].
  exact (ClientProps.fulfilled_image_is_data_url
           string newError string trim okHost
           (App.generateAngleVariation I1 (Some "Vista Superior"))
           "data:image/png;base64,AAAA" eq_refl).
Defined.

Lemma regeneration_base_is_front_view_witness :
  exists base,
    Obj.get
      (generatedImages
         (run friendly
            [Start boxA logoX (Fulfilled I1); SelectView 1 (Fulfilled I2)]
            initialState))
      "Vista Frontal" = Some base
    /\ App.generateAngleVariation I1 (Some "Vista Superior")
       = App.generateAngleVariation base (JS.index ANGLE_INSTRUCTIONS 2).
Proof.
  assert (handleAngleSelect friendly 2
            (run friendly
               [Start boxA logoX (Fulfilled I1);
                SelectView 1 (Fulfilled I2)] initialState)
          = Await awaitingTop
              (App.generateAngleVariation I1 (Some "Vista Superior"))
              (resumeAngleSelect friendly 1 (Some "Vista Superior")))
    as Hawait by (vm_compute; reflexivity).
  exact (SessionProps.regeneration_base_is_front_view
           string friendly
           [Start boxA logoX (Fulfilled I1); SelectView 1 (Fulfilled I2)]
           2%Z awaitingTop
           (App.generateAngleVariation I1 (Some "Vista Superior"))
           (resumeAngleSelect friendly 1 (Some "Vista Superior"))
           Hawait).
Defined.

Lemma images_nonempty_under_interleaving_witness :
  Spec.imagesNonEmpty
    (EventLoop.state
       (EventLoop.play string friendly
          [EventLoop.CallStart boxA logoX;
           EventLoop.Settle 0 (Fulfilled I1)]
          EventLoop.boot)).
Proof.
  assert (I1 <> "") as Himage by discriminate.
  assert (Forall EventLoop.delivers
            [EventLoop.CallStart boxA logoX;
             EventLoop.Settle 0 (Fulfilled (Thrown := string) I1)])
    as Hevents
    by (constructor; [exact I|constructor; [exact Himage|constructor]]).
  exact (InterleavingProps.images_nonempty_under_interleaving
           string friendly
           [EventLoop.CallStart boxA logoX;
            EventLoop.Settle 0 (Fulfilled I1)]
           Hevents).
Defined.

Lemma reset_does_not_cancel_witness :
  Spec.noSession
    (EventLoop.state
       (EventLoop.play string friendly
          [EventLoop.CallStart boxA logoX; EventLoop.CallStartOver;
           EventLoop.Settle 0 (Fulfilled I1)] EventLoop.boot))
  /\ generatedImages
       (EventLoop.state
          (EventLoop.play string friendly
             [EventLoop.CallStart boxA logoX; EventLoop.CallStartOver;
              EventLoop.Settle 0 (Fulfilled I1)] EventLoop.boot))
     = [("Vista Frontal", I1)]
  /\ displayImageUrl
       (EventLoop.state
          (EventLoop.play string friendly
             [EventLoop.CallStart boxA logoX; EventLoop.CallStartOver;
              EventLoop.Settle 0 (Fulfilled I1)] EventLoop.boot))
     = Some I1
  /\ EventLoop.inFlight
       (EventLoop.play string friendly
          [EventLoop.CallStart boxA logoX; EventLoop.CallStartOver;
           EventLoop.Settle 0 (Fulfilled I1)] EventLoop.boot)
     = [].
Proof.
  exact (InterleavingProps.reset_does_not_cancel
           string friendly EventLoop.boot boxA logoX I1 eq_refl).
Defined.

Lemma start_screen_starts_with_image_logo_witness :
  StartScreen.started clicks StartScreen.initialState
  = [(StartScreen.defaultBox, logoX)]
  /\ fst (StartScreen.defaultBox, logoX) = StartScreen.defaultBox
  /\ prefix "image/" (fileType (snd (StartScreen.defaultBox, logoX)))
     = true.
Proof.
  split; [reflexivity|].
  exact (StartScreenProps.start_screen_starts_with_image_logo
           clicks (StartScreen.defaultBox, logoX) (or_introl eq_refl)).
Defined.

Lemma session_entry_is_always_a_hit_witness :
  handleAngleSelect friendly 0
    (session string newError string trim friendly inlineCalls)
  = Done
      (setCurrentAngleIndex 0
         (session string newError string trim friendly inlineCalls)).
Proof.
  assert (Obj.get
            (generatedImages
               (session string newError string trim friendly inlineCalls))
            (Spec.viewKey 0)
          = Some "data:image/png;base64,AAAA")
    as Hget by (vm_compute; reflexivity).
  assert (isLoading
            (session string newError string trim friendly inlineCalls)
          = false)
    as Hl by (vm_compute; reflexivity).
  assert (0%Z
          <> currentAngleIndex
               (session string newError string trim friendly inlineCalls))
    as Hne by (vm_compute; discriminate).
  assert (selectedBox
            (session string newError string trim friendly inlineCalls)
          <> None)
    as Hbox by (vm_compute; discriminate).
  exact (HostSessionProps.session_entry_is_always_a_hit
           string newError string trim friendly inlineCalls
           0%Z "data:image/png;base64,AAAA" Hget Hl Hne Hbox).
Defined.

Lemma start_that_never_settles_stays_pending_witness :
  isLoading
    (serve string newError string trim friendly emptyBodyHost
       (StartCall boxA logoX) initialState) = true
  /\ selectedBox
       (serve string newError string trim friendly emptyBodyHost
          (StartCall boxA logoX) initialState) = Some boxA
  /\ generatedImages
       (serve string newError string trim friendly emptyBodyHost
          (StartCall boxA logoX) initialState)
     = generatedImages initialState
  /\ forall newIndex,
      serve string newError string trim friendly emptyBodyHost
        (SelectViewCall newIndex)
        (serve string newError string trim friendly emptyBodyHost
           (StartCall boxA logoX) initialState)
      = serve string newError string trim friendly emptyBodyHost
          (StartCall boxA logoX) initialState.
Proof.
  exact (HostSessionProps.start_that_never_settles_stays_pending
           string newError string trim friendly emptyBodyHost initialState
           boxA logoX {| ok := true; blob := inr "empty" |} "empty" "data:"
           "Invalid data URL"
           eq_refl eq_refl eq_refl eq_refl eq_refl eq_refl).
Defined.

Lemma fulfilled_regeneration_appends_view_witness :
  availableAngleKeys
    (resumeAngleSelect friendly 1 (Some "Vista Superior") (Fulfilled I3)
       awaitingTop)
  = (availableAngleKeys twoViews ++ [Spec.viewKey 2])%list
  /\ (forall key,
         key <> Spec.viewKey 2 ->
         Obj.get
           (generatedImages
              (resumeAngleSelect friendly 1 (Some "Vista Superior")
                 (Fulfilled I3) awaitingTop)) key
         = Obj.get (generatedImages twoViews) key)
  /\ displayImageUrl
       (resumeAngleSelect friendly 1 (Some "Vista Superior")
          (Fulfilled I3) awaitingTop) = Some I3
  /\ currentAngleIndex
       (resumeAngleSelect friendly 1 (Some "Vista Superior")
          (Fulfilled I3) awaitingTop) = 2%Z
  /\ isLoading
       (resumeAngleSelect friendly 1 (Some "Vista Superior")
          (Fulfilled I3) awaitingTop) = false.
Proof.
  assert (Obj.get (generatedImages twoViews) (Spec.viewKey 2) = None)
    as Hmiss by (vm_compute; reflexivity).
  assert (handleAngleSelect friendly 2 twoViews
          = Await awaitingTop
              (App.generateAngleVariation I1 (Some "Vista Superior"))
              (resumeAngleSelect friendly 1 (Some "Vista Superior")))
    as Hawait by (vm_compute; reflexivity).
  exact (OutcomeProps.fulfilled_regeneration_appends_view
           string friendly 2%Z twoViews awaitingTop
           (App.generateAngleVariation I1 (Some "Vista Superior"))
           (resumeAngleSelect friendly 1 (Some "Vista Superior")) I3
           Hmiss Hawait).
Defined.

(** Two SelectView calls before the next render both read a state
    that is not pending, and both issue a request; with a render in
    between, the second is ignored. *)
Example two_calls_before_render :
  length
    (EventLoop.inFlight
       (EventLoop.play string friendly
          [EventLoop.CallStart boxA logoX;
           EventLoop.Settle 0 (Fulfilled I1);
           EventLoop.Render;
           EventLoop.CallSelectView 1;
           EventLoop.CallSelectView 2]
          EventLoop.boot)) = 2
  /\ length
       (EventLoop.inFlight
          (EventLoop.play string friendly
             [EventLoop.CallStart boxA logoX;
              EventLoop.Settle 0 (Fulfilled I1);
              EventLoop.Render;
              EventLoop.CallSelectView 1;
              EventLoop.Render;
              EventLoop.CallSelectView 2]
             EventLoop.boot)) = 1.
Proof. vm_compute. split; reflexivity. Qed.

End ExtraScenarios.
